(** * Attendance API (functions/index.js): geo-verified check-in

    A shallow embedding of the Cloud Functions handlers [createSession],
    [checkin], [finalizeSession] and [health] and of the [haversineDistance]
    helper, with the properties the specification states about them
    (C1 to C10) and further properties read off the code (marked X).

    Conventions of the embedding.
    - A JavaScript Number is an IEEE 754 binary64 value: Rocq's primitive
      [float], whose operations are specified by [SpecFloat].
    - The parts of [Math] and of [**] that ECMA-262 leaves to the
      implementation are fields of the class [Host]; the results the
      standard fixes (NaN, zeros, infinities) are written out.
    - Request bodies and Firestore documents are JavaScript values ([value]).
    - The Firestore collections are lists held in a [world]; every store call
      is a state transformer on it, and the writes a handler issues are kept
      in the trace [issued].
    - A handler runs to a reply.  An exception of its own code (the
      TypeError of a conversion, the Error of [doc] on a token that is not a
      document path) is caught by its [catch] and answered 500
      [server_error].  A request to the store that fails ([get], [set],
      [add] or [commit] of a document that Firestore refuses) is outside the
      model: the handler then answers 500 and writes nothing.  So is the
      interleaving of concurrent requests. *)

From Stdlib Require Import ZArith List Ascii String Bool Lia Floats Reals Lra.
Import ListNotations.

Set Implicit Arguments.

(** ** Arithmetic signature of the numeric code

    [haversineDistance] is written once over this signature and read twice:
    over binary64 (what the program computes) and over the real numbers (the
    formula it implements). *)

Class Arith (N : Type) : Type := {
  lit : Z -> N;
  add : N -> N -> N;
  sub : N -> N -> N;
  mul : N -> N -> N;
  div : N -> N -> N;
  pow : N -> N -> N;
  Math_PI : N;
  Math_sin : N -> N;
  Math_cos : N -> N;
  Math_sqrt : N -> N;
  Math_atan2 : N -> N -> N
}.

Declare Scope js_scope.
Delimit Scope js_scope with js.
Notation "x + y" := (add x y) : js_scope.
Notation "x - y" := (sub x y) : js_scope.
Notation "x * y" := (mul x y) : js_scope.
Notation "x / y" := (div x y) : js_scope.
Notation "x ** y" := (pow x y) (at level 30, right associativity) : js_scope.

Section Haversine.
Context {N : Type} {A : Arith N}.
Local Open Scope js_scope.

Definition EARTH_RADIUS : N := lit 6371000.

Definition toRad (v : N) : N := (v * Math_PI) / lit 180.

Definition haversineDistance (lat1 lon1 lat2 lon2 : N) : N :=
  let dLat := toRad (lat2 - lat1) in
  let dLon := toRad (lon2 - lon1) in
  let a :=
    Math_sin (dLat / lit 2) ** lit 2 +
    Math_cos (toRad lat1) * Math_cos (toRad lat2) *
    Math_sin (dLon / lit 2) ** lit 2 in
  let c := lit 2 * Math_atan2 (Math_sqrt a) (Math_sqrt (lit 1 - a)) in
  EARTH_RADIUS * c.

(** *** The formula of the specification

    a = sin^2(dlat/2) + cos(lat1) cos(lat2) sin^2(dlon/2),
    c = 2 atan2(sqrt a, sqrt (1 - a)), distance = 6371000 c,
    on angles in radians, written in the same arithmetic. *)

(** Degrees to radians. *)
Definition radians (degrees : N) : N := (degrees * Math_PI) / lit 180.

Definition haversine_formula (dlat dlon phi1 phi2 : N) : N :=
  let a :=
    Math_sin (dlat / lit 2) ** lit 2 +
    Math_cos phi1 * Math_cos phi2 * Math_sin (dlon / lit 2) ** lit 2 in
  let c := lit 2 * Math_atan2 (Math_sqrt a) (Math_sqrt (lit 1 - a)) in
  lit 6371000 * c.

(** The reference formula with all four inputs converted to radians first:
    the differences are differences of radians. *)
Definition haversine_reference (lat1 lon1 lat2 lon2 : N) : N :=
  let phi1 := radians lat1 in
  let lambda1 := radians lon1 in
  let phi2 := radians lat2 in
  let lambda2 := radians lon2 in
  haversine_formula (phi2 - phi1) (lambda2 - lambda1) phi1 phi2.

(** The formula with the differences taken in degrees and then converted. *)
Definition haversine_of_differences (lat1 lon1 lat2 lon2 : N) : N :=
  haversine_formula (radians (lat2 - lat1)) (radians (lon2 - lon1))
                    (radians lat1) (radians lat2).

End Haversine.

(** ** Binary64 numbers and the host *)

Definition number := float.

Definition NaN : number := nan.

(** An integer literal of the source, as the binary64 value nearest to it. *)
Definition of_Z (z : Z) : number := SF2Prim (binary_normalize prec emax z 0 false).

(** [Math.PI], 3.141592653589793. *)
Definition PI64 : number := 0x1.921fb54442d18p+1%float.

(** Whether a string holds a slash. *)
Fixpoint has_slash (s : string) : bool :=
  match s with
  | EmptyString => false
  | String c rest => Ascii.eqb c "/" || has_slash rest
  end.

(** A document identifier: a string that is not empty and holds no slash. *)
Definition plain_id (s : string) : bool :=
  negb (String.eqb s "") && negb (has_slash s).

(** What the host supplies: the approximations behind [Math.sin],
    [Math.cos], [Math.atan2] and [**], the conversions between strings and
    Numbers (7.1.4.1.1 and 6.1.6.1.20, not unfolded here), the successive
    readings of [Date.now()] and the identifiers Firestore's [doc()]
    generates, which are document identifiers (twenty letters and digits). *)
Class Host : Type := {
  approx_sin : number -> number;
  approx_cos : number -> number;
  approx_atan2 : number -> number -> number;
  approx_pow : number -> number -> number;
  StringToNumber : string -> number;
  NumberToString : number -> string;
  clock : nat -> number;
  autoId : nat -> string;
  autoId_plain : forall n : nat, plain_id (autoId n) = true
}.

(** Tests on the binary64 representation of an exponent. *)
Definition is_integral (x : number) : bool :=
  match Prim2SF x with
  | S754_zero _ => true
  | S754_finite _ m e =>
      match e with
      | Zneg p => (Zpos m mod 2 ^ Zpos p =? 0)%Z
      | _ => true
      end
  | _ => false
  end.

Definition is_odd_integral (x : number) : bool :=
  match Prim2SF x with
  | S754_finite _ m e =>
      match e with
      | Z0 => Z.odd (Zpos m)
      | Zpos _ => false
      | Zneg p => (Zpos m mod 2 ^ Zpos p =? 0)%Z && Z.odd (Zpos m / 2 ^ Zpos p)
      end
  | _ => false
  end.

Section Binary64.
Context {H : Host}.
Local Open Scope float_scope.

(** [Math.sin] (ECMA-262 21.3.2.30). *)
Definition sin64 (x : number) : number :=
  if is_nan x then NaN
  else if is_zero x then x
  else if is_infinity x then NaN
  else approx_sin x.

(** [Math.cos] (21.3.2.12). *)
Definition cos64 (x : number) : number :=
  if is_nan x then NaN
  else if is_zero x then one
  else if is_infinity x then NaN
  else approx_cos x.

(** [Math.atan2] (21.3.2.8): the cases with an exact result; every other
    case, the multiples of pi included, is the host's approximation. *)
Definition atan2_64 (y x : number) : number :=
  if is_nan y || is_nan x then NaN
  else if is_zero y then
    if (zero <? x) || Leibniz.eqb x zero then y else approx_atan2 y x
  else if is_finite y && Leibniz.eqb x infinity then
    (if zero <? y then zero else neg_zero)
  else approx_atan2 y x.

(** [Number::exponentiate] (6.1.6.1.3), the semantics of [**]. *)
Definition exponentiate (base exponent : number) : number :=
  if is_nan exponent then NaN
  else if is_zero exponent then one
  else if is_nan base then NaN
  else if Leibniz.eqb base infinity then
    (if zero <? exponent then infinity else zero)
  else if Leibniz.eqb base neg_infinity then
    (if zero <? exponent
     then (if is_odd_integral exponent then neg_infinity else infinity)
     else (if is_odd_integral exponent then neg_zero else zero))
  else if Leibniz.eqb base zero then
    (if zero <? exponent then zero else infinity)
  else if Leibniz.eqb base neg_zero then
    (if zero <? exponent
     then (if is_odd_integral exponent then neg_zero else zero)
     else (if is_odd_integral exponent then neg_infinity else infinity))
  else if Leibniz.eqb exponent infinity then
    (if one <? abs base then infinity
     else if abs base =? one then NaN else zero)
  else if Leibniz.eqb exponent neg_infinity then
    (if one <? abs base then zero
     else if abs base =? one then NaN else infinity)
  else if (base <? zero) && negb (is_integral exponent) then NaN
  else approx_pow base exponent.

#[export] Instance binary64 : Arith number := {|
  lit := of_Z;
  add := PrimFloat.add;
  sub := PrimFloat.sub;
  mul := PrimFloat.mul;
  div := PrimFloat.div;
  pow := exponentiate;
  Math_PI := PI64;
  Math_sin := sin64;
  Math_cos := cos64;
  Math_sqrt := PrimFloat.sqrt;
  Math_atan2 := atan2_64
|}.

(** The term [Math.sin(toRad(delta) / 2) ** 2] of the distance, for a
    difference [delta] of degrees. *)
Definition hav (delta : number) : number :=
  exponentiate (sin64 (delta * PI64 / of_Z 180 / of_Z 2)) (of_Z 2).

End Binary64.


(** ** The real numbers

    The same signature over exact arithmetic: the reading in which the
    specification writes the haversine formula. *)

Section RealNumbers.
Local Open Scope R_scope.

(** The angle of the point [(x, y)], in (-pi, pi]. *)
Definition atan2R (y x : R) : R :=
  if Rlt_dec 0 x then atan (y / x)
  else if Rlt_dec x 0 then
    (if Rle_dec 0 y then atan (y / x) + PI else atan (y / x) - PI)
  else if Rlt_dec 0 y then PI / 2
  else if Rlt_dec y 0 then - PI / 2
  else 0.

(** [x] to the power [y]: the integer power when [y] is an integer, the
    exponential of [y * ln x] otherwise. *)
Definition powR (x y : R) : R :=
  if Req_EM_T y (IZR (Int_part y)) then powerRZ x (Int_part y) else Rpower x y.

#[export] Instance reals : Arith R := {|
  lit := IZR;
  add := Rplus;
  sub := Rminus;
  mul := Rmult;
  div := Rdiv;
  pow := powR;
  Math_PI := PI;
  Math_sin := sin;
  Math_cos := cos;
  Math_sqrt := sqrt;
  Math_atan2 := atan2R
|}.

End RealNumbers.

(** ** JavaScript values

    What [express.json()] hands over as [req.body] and what a Firestore
    document holds.  An object is the list of its own properties. *)

#[local] Unset Elimination Schemes.
Inductive value : Type :=
| VUndefined
| VNull
| VBool (b : bool)
| VNumber (n : number)
| VString (s : string)
| VArray (items : list value)
| VObject (fields : list (string * value)).
#[local] Set Elimination Schemes.

Fixpoint lookup (k : string) (fields : list (string * value)) : option value :=
  match fields with
  | [] => None
  | (k', v) :: rest => if String.eqb k k' then Some v else lookup k rest
  end.

(** Property read [o.k] for the property names the handlers use, none of
    which is inherited from a prototype.  The handlers read properties of
    request bodies, of documents, and of a location they have found truthy:
    never of [null] or [undefined]. *)
Definition get (o : value) (k : string) : value :=
  match o with
  | VObject fields =>
      match lookup k fields with
      | Some v => v
      | None => VUndefined
      end
  | _ => VUndefined
  end.

(** ToBoolean (ECMA-262 7.1.2). *)
Definition truthy (v : value) : bool :=
  match v with
  | VUndefined | VNull => false
  | VBool b => b
  | VNumber n => negb (is_zero n || is_nan n)
  | VString s => negb (String.eqb s "")
  | VArray _ | VObject _ => true
  end.

(** [a || b] when [b] has no effect. *)
Definition js_or (a b : value) : value := if truthy a then a else b.

(** [typeof v === "number"]. *)
Definition typeof_number (v : value) : bool :=
  match v with
  | VNumber _ => true
  | _ => false
  end.

(** [Number.isFinite(v)]: no conversion, a Number that is neither NaN nor
    infinite. *)
Definition Number_isFinite (v : value) : bool :=
  match v with
  | VNumber n => is_finite n
  | _ => false
  end.

(** [v === s] for a string literal [s]. *)
Definition is_string (v : value) (s : string) : bool :=
  match v with
  | VString t => String.eqb t s
  | _ => false
  end.

(** Equality of two Numbers as Firestore filters and [Set] lookups take it:
    numeric equality, and NaN equal to itself. *)
Definition same_number (x y : number) : bool :=
  (x =? y)%float || (is_nan x && is_nan y).

(** The [==] filter of a Firestore query: equality of stored values, item
    by item and field by field (the fields of a map in stored order). *)
Fixpoint store_eq (a b : value) {struct a} : bool :=
  match a, b with
  | VUndefined, VUndefined => true
  | VNull, VNull => true
  | VBool x, VBool y => Bool.eqb x y
  | VNumber x, VNumber y => same_number x y
  | VString s, VString t => String.eqb s t
  | VArray xs, VArray ys =>
      (fix items (xs ys : list value) {struct xs} : bool :=
         match xs, ys with
         | [], [] => true
         | x :: xs', y :: ys' => store_eq x y && items xs' ys'
         | _, _ => false
         end) xs ys
  | VObject fs, VObject gs =>
      (fix fields (fs gs : list (string * value)) {struct fs} : bool :=
         match fs, gs with
         | [], [] => true
         | (k, x) :: fs', (k', y) :: gs' =>
             String.eqb k k' && store_eq x y && fields fs' gs'
         | _, _ => false
         end) fs gs
  | _, _ => false
  end.

(** SameValueZero (7.2.12), the membership test of [Set.prototype.has], on
    values read from two different documents: objects and arrays are then
    distinct references. *)
Definition same_value_zero (a b : value) : bool :=
  match a, b with
  | VUndefined, VUndefined => true
  | VNull, VNull => true
  | VBool x, VBool y => Bool.eqb x y
  | VNumber x, VNumber y => same_number x y
  | VString s, VString t => String.eqb s t
  | _, _ => false
  end.

(** [new Set(ids).has(v)]. *)
Definition set_has (ids : list value) (v : value) : bool :=
  existsb (same_value_zero v) ids.

(** ** Document references

    [db.collection("sessions").doc(path)], as the Firestore client reads its
    argument (validateResourcePath, ResourcePath.append and isDocument). *)

(** Whether a string holds two slashes in a row. *)
Fixpoint double_slash (s : string) : bool :=
  match s with
  | EmptyString => false
  | String a rest =>
      match rest with
      | EmptyString => false
      | String b _ => (Ascii.eqb a "/" && Ascii.eqb b "/") || double_slash rest
      end
  end.

(** [s.split("/")], [piece] being what was read since the last slash. *)
Fixpoint split_slash (piece s : string) : list string :=
  match s with
  | EmptyString => [piece]
  | String c rest =>
      if Ascii.eqb c "/" then piece :: split_slash EmptyString rest
      else split_slash (piece ++ String c EmptyString) rest
  end.

(** The segments of a relative path: the pieces between its slashes, the
    empty pieces of a leading or trailing slash left out. *)
Definition segments (s : string) : list string :=
  filter (fun piece => negb (String.eqb piece "")) (split_slash EmptyString s).

(** [doc(path)] below a collection: the segments of the reference, or
    [None] when the call throws.  It throws when the argument is not a
    string, is empty or holds two slashes in a row, and when the path does
    not point to a document: below a collection, a document is an odd number
    of segments away. *)
Definition doc (path : value) : option (list string) :=
  match path with
  | VString s =>
      if String.eqb s "" || double_slash s then None
      else if Nat.odd (List.length (segments s)) then Some (segments s)
      else None
  | _ => None
  end.

Section Conversions.
Context {H : Host}.

(** ToString (7.1.17) of a value, [None] for the TypeError of ToPrimitive.
    An array is joined with commas, [undefined] and [null] items printing as
    nothing; an object prints through [Object.prototype.toString] unless an
    own [toString] property, which is never callable in a value that comes
    from JSON or Firestore, hides it. *)
Fixpoint ToString (v : value) : option string :=
  match v with
  | VUndefined => Some "undefined"
  | VNull => Some "null"
  | VBool b => Some (if b then "true" else "false")
  | VNumber n => Some (NumberToString n)
  | VString s => Some s
  | VArray xs =>
      (fix join (xs : list value) : option string :=
         match xs with
         | [] => Some ""
         | x :: rest =>
             let item :=
               match x with
               | VUndefined | VNull => Some ""
               | _ => ToString x
               end in
             let tail := join rest in
             match item, tail with
             | Some s, Some t =>
                 Some (if (List.length rest =? 0)%nat then s else s ++ "," ++ t)
             | _, _ => None
             end
         end) xs
  | VObject fields =>
      match lookup "toString" fields with
      | Some _ => None
      | None => Some "[object Object]"
      end
  end%string.

(** ToNumber (7.1.4); an array or object goes through ToPrimitive first. *)
Definition ToNumber (v : value) : option number :=
  match v with
  | VUndefined => Some NaN
  | VNull => Some zero
  | VBool b => Some (if b then one else zero)
  | VNumber n => Some n
  | VString s => Some (StringToNumber s)
  | VArray _ | VObject _ =>
      match ToString v with
      | Some s => Some (StringToNumber s)
      | None => None
      end
  end.

(** [n > v] for a Number [n] (IsLessThan, 7.2.13, on ToNumber of [v]);
    [None] when the conversion throws. *)
Definition number_gt (n : number) (v : value) : option bool :=
  match ToNumber v with
  | Some m => Some (m <? n)%float
  | None => None
  end.

End Conversions.

(** ** The store and the handler monad *)

(** A write a handler issues. *)
Inductive write : Type :=
| SetSession (id : string) (doc : value)
| AddAttendance (doc : value)
| CommitBatch (docs : list value).

(** The three collections, the number of [Date.now()] readings and of
    generated identifiers consumed so far, and the writes issued, oldest
    first.  Attendance documents are kept without their generated
    identifiers, which no handler reads. *)
Record world : Type := mkWorld {
  sessions : list (string * value);
  attendance : list value;
  students : list value;
  clock_reads : nat;
  ids_drawn : nat;
  issued : list write
}.

(** How a computation ends: with a value, or with a thrown exception. *)
Inductive completion (A : Type) : Type :=
| Normal (a : A)
| Throw.
Arguments Normal {A} a.
Arguments Throw {A}.

Definition io (A : Type) : Type := world -> completion A * world.

Definition ret {A : Type} (a : A) : io A := fun w => (Normal a, w).

Definition bind {A B : Type} (m : io A) (k : A -> io B) : io B :=
  fun w =>
    match m w with
    | (Normal a, w') => k a w'
    | (Throw, w') => (Throw, w')
    end.

Definition throw {A : Type} : io A := fun w => (Throw, w).

Notation "x <- m ;; k" := (bind m (fun x => k))
  (at level 61, m at next level, right associativity).
Notation "m ;;; k" := (bind m (fun _ => k))
  (at level 61, right associativity).

(** An HTTP reply: [res.status(code).json(body)]. *)
Record response : Type := reply { status : Z; body : value }.

Definition error_body (e : string) : value :=
  VObject [("ok", VBool false); ("error", VString e)]%string.

Section Handlers.
Context {H : Host}.
Local Open Scope string_scope.

(** [Date.now()]: the next reading of the clock. *)
Definition Date_now : io number :=
  fun w =>
    (Normal (clock (clock_reads w)),
     mkWorld (sessions w) (attendance w) (students w)
             (S (clock_reads w)) (ids_drawn w) (issued w)).

(** [db.collection(c).doc()]: a reference with a generated identifier. *)
Definition new_doc : io string :=
  fun w =>
    (Normal (autoId (ids_drawn w)),
     mkWorld (sessions w) (attendance w) (students w)
             (clock_reads w) (S (ids_drawn w)) (issued w)).

(** The snapshot of a reference below the sessions collection: [None]
    when it does not exist, otherwise its [data()].  One segment names a
    session; a longer path names a document of a subcollection, and this
    store has none. *)
Definition snapshot (reference : list string) (w : world) : option value :=
  match reference with
  | [id] => lookup id (sessions w)
  | _ => None
  end.

(** [db.collection("sessions").doc(token).get()]: the call of [doc] throws
    on a token it refuses. *)
Definition get_session (token : value) : io (option value) :=
  fun w =>
    match doc token with
    | Some reference => (Normal (snapshot reference w), w)
    | None => (Throw, w)
    end.

(** [sessionRef.set(session)], for a document that Firestore accepts. *)
Definition set_session (id : string) (doc : value) : io unit :=
  fun w =>
    (Normal tt,
     mkWorld ((id, doc) :: sessions w) (attendance w) (students w)
             (clock_reads w) (ids_drawn w) (issued w ++ [SetSession id doc])).

(** The filter [where(k, "==", x)] on one document. *)
Definition field_is (k : string) (x : value) (doc : value) : bool :=
  match doc with
  | VObject fields =>
      match lookup k fields with
      | Some v => store_eq v x
      | None => false
      end
  | _ => false
  end.

(** [db.collection("attendance").where(..)...get()]: the documents that
    pass the filters. *)
Definition query_attendance (p : value -> bool) : io (list value) :=
  fun w => (Normal (filter p (attendance w)), w).

(** [db.collection("students").get()]. *)
Definition get_students : io (list value) :=
  fun w => (Normal (students w), w).

(** [db.collection("attendance").add(rec)]. *)
Definition add_attendance (rec : value) : io unit :=
  fun w =>
    (Normal tt,
     mkWorld (sessions w) (attendance w ++ [rec]) (students w)
             (clock_reads w) (ids_drawn w) (issued w ++ [AddAttendance rec])).

(** [batch.commit()] of the documents set on the batch. *)
Definition commit (docs : list value) : io unit :=
  fun w =>
    (Normal tt,
     mkWorld (sessions w) (attendance w ++ docs) (students w)
             (clock_reads w) (ids_drawn w) (issued w ++ [CommitBatch docs])).

(** A value that may throw, inside a handler. *)
Definition lift {A : Type} (o : option A) : io A :=
  match o with
  | Some a => ret a
  | None => throw
  end.

(** [try { body } catch (err) { res.status(500).json({ok: false, error}) }]. *)
Definition try_catch (body : io response) (error : string)
  : world -> response * world :=
  fun w =>
    match body w with
    | (Normal r, w') => (r, w')
    | (Throw, w') => (reply 500 (error_body error), w')
    end.

(** The Number a value is, where [typeof] or [Number.isFinite] has said it
    is one. *)
Definition number_of (v : value) : number :=
  match v with
  | VNumber n => n
  | _ => NaN
  end.

(** *** POST /createSession *)

Definition createSession_body (req_body : value) : io response :=
  let b := js_or req_body (VObject []) in
  let courseId := get b "courseId" in
  let startTs := get b "startTs" in
  let expiresAt := get b "expiresAt" in
  let location := get b "location" in
  let thresholdMeters := get b "thresholdMeters" in
  if negb (truthy courseId) then ret (reply 400 (error_body "missing_courseId"))
  else
    id <- new_doc ;;
    startTs' <- (if truthy startTs then ret startTs
                 else t <- Date_now ;; ret (VNumber t)) ;;
    expiresAt' <- (if truthy expiresAt then ret expiresAt
                   else t <- Date_now ;;
                        ret (VNumber (t + of_Z 15 * of_Z 60 * of_Z 1000)%float)) ;;
    createdAt <- Date_now ;;
    let session := VObject [
      ("courseId", courseId);
      ("startTs", startTs');
      ("expiresAt", expiresAt');
      ("token", VString id);
      ("createdAt", VNumber createdAt);
      ("location", js_or location VNull);
      ("thresholdMeters",
        if Number_isFinite thresholdMeters then thresholdMeters
        else VNumber (of_Z 100))] in
    set_session id session ;;;
    ret (reply 200 (VObject [
      ("ok", VBool true);
      ("sessionId", VString id);
      ("token", VString id);
      ("session", session)])).

Definition createSession (req_body : value) : world -> response * world :=
  try_catch (createSession_body req_body) "server_error".

(** *** POST /checkin *)

(** The attendance document of one attempt; [more] is [distanceMeters] when
    a distance was computed. *)
Definition attempt (studentId studentName session sessionToken : value)
    (now : number) (st : string) (verified : bool)
    (more : list (string * value)) : value :=
  VObject ([
    ("studentId", studentId);
    ("studentName", js_or studentName (VString ""));
    ("courseId", js_or (get session "courseId") (VString ""));
    ("sessionId", sessionToken);
    ("timestamp", VNumber now);
    ("status", VString st);
    ("verified", VBool verified)] ++ more).

(** [!l || typeof l.lat !== "number" || typeof l.lng !== "number"]. *)
Definition no_coordinates (l : value) : bool :=
  negb (truthy l) || negb (typeof_number (get l "lat"))
  || negb (typeof_number (get l "lng")).

(** [Number.isFinite(session.thresholdMeters) ? session.thresholdMeters : 100]. *)
Definition threshold_of (session : value) : number :=
  if Number_isFinite (get session "thresholdMeters")
  then number_of (get session "thresholdMeters")
  else of_Z 100.

(** [haversineDistance(location.lat, location.lng,
                       session.location.lat, session.location.lng)]. *)
Definition distance_to (location session : value) : number :=
  haversineDistance
    (number_of (get location "lat")) (number_of (get location "lng"))
    (number_of (get (get session "location") "lat"))
    (number_of (get (get session "location") "lng")).

(** The numbered part of the handler, entered once the duplicate check has
    found nothing: 1) require the client location, 2) the session must have
    a location, 3) distance check. *)
Definition geo_verify (studentId studentName session sessionToken location : value)
  : io response :=
  if no_coordinates location then
    now <- Date_now ;;
    add_attendance (attempt studentId studentName session sessionToken
                      now "rejected_no_location" false []) ;;;
    ret (reply 400 (error_body "location_required"))
  else if no_coordinates (get session "location") then
    now <- Date_now ;;
    add_attendance (attempt studentId studentName session sessionToken
                      now "rejected_no_session_location" false []) ;;;
    ret (reply 400 (error_body "session_has_no_location"))
  else
    let threshold := threshold_of session in
    let distanceMeters := distance_to location session in
    if (threshold <? distanceMeters)%float then
      now <- Date_now ;;
      add_attendance (attempt studentId studentName session sessionToken
                        now "rejected_out_of_range" false
                        [("distanceMeters", VNumber distanceMeters)]) ;;;
      ret (reply 400 (VObject [
        ("ok", VBool false);
        ("error", VString "out_of_range");
        ("distanceMeters", VNumber distanceMeters);
        ("threshold", VNumber threshold)]))
    else
      now <- Date_now ;;
      let rec := attempt studentId studentName session sessionToken
                   now "present" true
                   [("distanceMeters", VNumber distanceMeters)] in
      add_attendance rec ;;;
      ret (reply 200 (VObject [
        ("ok", VBool true);
        ("verified", VBool true);
        ("distanceMeters", VNumber distanceMeters);
        ("record", rec)])).

Definition checkin_body (req_body : value) : io response :=
  let b := js_or req_body (VObject []) in
  let sessionToken := get b "sessionToken" in
  let studentId := get b "studentId" in
  let studentName := get b "studentName" in
  let location := get b "location" in
  if negb (truthy sessionToken) || negb (truthy studentId)
  then ret (reply 400 (error_body "missing_params"))
  else
    sessSnap <- get_session sessionToken ;;
    match sessSnap with
    | None => ret (reply 400 (error_body "invalid_session"))
    | Some session =>
      expired <- (if truthy (get session "expiresAt")
                  then now <- Date_now ;;
                       lift (number_gt now (get session "expiresAt"))
                  else ret false) ;;
      if expired then ret (reply 400 (error_body "session_expired"))
      else
        existing <- query_attendance (fun d =>
                      field_is "sessionId" sessionToken d
                      && field_is "studentId" studentId d) ;;
        match firstn 1 existing with
        | _ :: _ => ret (reply 200 (error_body "already_checked_in"))
        | [] => geo_verify studentId studentName session sessionToken location
        end
    end.

Definition checkin (req_body : value) : world -> response * world :=
  try_catch (checkin_body req_body) "server_error".

(** *** POST /finalizeSession *)

(** [new Set(items)]: [add] of every item in turn; the elements are kept in
    insertion order. *)
Fixpoint Set_add_all (s : list value) (items : list value) : list value :=
  match items with
  | [] => s
  | x :: rest => Set_add_all (if set_has s x then s else s ++ [x])%list rest
  end.

Definition Set_of (items : list value) : list value := Set_add_all [] items.

(** The [studentId]s of the documents whose status is ["present"]. *)
Definition present_ids (docs : list value) : list value :=
  map (fun r => get r "studentId")
      (filter (fun r => is_string (get r "status") "present") docs).

(** The absence document of one roster entry. *)
Definition absence (s sessionId : value) (now : number) : value :=
  VObject [
    ("studentId", get s "studentId");
    ("studentName", js_or (get s "name") (VString ""));
    ("courseId", js_or (get s "courseId") (VString ""));
    ("sessionId", sessionId);
    ("timestamp", VNumber now);
    ("status", VString "absent");
    ("verified", VBool false)].

(** The body of [rosterSnap.forEach]: the documents set on the batch and the
    counter [absents], threaded through the roster. *)
Fixpoint mark_absent (presentIds : list value) (sessionId : value)
    (roster : list value) (batch : list value) (absents : nat)
  : io (list value * nat) :=
  match roster with
  | [] => ret (batch, absents)
  | s :: rest =>
      if truthy (get s "studentId") && negb (set_has presentIds (get s "studentId"))
      then
        _ref <- new_doc ;;
        now <- Date_now ;;
        mark_absent presentIds sessionId rest
          (batch ++ [absence s sessionId now])%list (S absents)
      else mark_absent presentIds sessionId rest batch absents
  end.

Definition finalizeSession_body (req_body : value) : io response :=
  let b := js_or req_body (VObject []) in
  let sessionId := get b "sessionId" in
  if negb (truthy sessionId) then ret (reply 400 (error_body "missing_sessionId"))
  else
    attSnap <- query_attendance (field_is "sessionId" sessionId) ;;
    rosterSnap <- get_students ;;
    let presentIds := Set_of (present_ids attSnap) in
    marked <- mark_absent presentIds sessionId rosterSnap [] 0 ;;
    let (batch, absents) := marked in
    (if (0 <? absents)%nat then commit batch else ret tt) ;;;
    ret (reply 200 (VObject [
      ("ok", VBool true);
      ("absentsAdded", VNumber (of_Z (Z.of_nat absents)))])).

Definition finalizeSession (req_body : value) : world -> response * world :=
  try_catch (finalizeSession_body req_body) "server_error".

(** *** GET /health *)

(** [res.json({ ok: true, ts: Date.now() })]; the request is not read. *)
Definition health : world -> response * world :=
  fun w =>
    (reply 200 (VObject [("ok", VBool true);
                         ("ts", VNumber (clock (clock_reads w)))]),
     snd (Date_now w)).

End Handlers.

(** ** Vocabulary of the statements *)

Section Vocabulary.
Context {H : Host}.
Local Open Scope string_scope.

(** A field of the request body, as the handlers destructure it from
    [req.body || {}]. *)
Definition field (req : value) (k : string) : value :=
  get (js_or req (VObject [])) k.

(** The session document a token refers to, if any. *)
Definition session_of (token : value) (w : world) : option value :=
  match doc token with
  | Some reference => snapshot reference w
  | None => None
  end.

(** The attendance documents already stored for a (session, student) pair. *)
Definition prior_records (token studentId : value) (w : world) : list value :=
  filter (fun d => field_is "sessionId" token d && field_is "studentId" studentId d)
         (attendance w).

(** The expiry step lets the call through: no expiry is set, or the clock
    reading taken for the comparison does not exceed it. *)
Definition unexpired (session : value) (w : world) : Prop :=
  truthy (get session "expiresAt") = false \/
  number_gt (clock (clock_reads w)) (get session "expiresAt") = Some false.

(** The clock reading a check-in stamps its record with: the one after the
    reading the expiry step takes, when it takes one. *)
Definition stamp (session : value) (w : world) : number :=
  clock (clock_reads w + (if truthy (get session "expiresAt") then 1 else 0)).

(** Nothing was written between two worlds. *)
Definition wrote_nothing (w w' : world) : Prop :=
  sessions w' = sessions w /\ attendance w' = attendance w /\
  students w' = students w /\ issued w' = issued w.

(** Exactly one attendance document was added between two worlds. *)
Definition wrote_one (w w' : world) (rec : value) : Prop :=
  sessions w' = sessions w /\ attendance w' = (attendance w ++ [rec])%list /\
  students w' = students w /\ issued w' = (issued w ++ [AddAttendance rec])%list.

(** The session has no geofence centre. *)
Definition no_geofence (session : value) : Prop :=
  get session "location" = VNull \/ get session "location" = VUndefined.

(** The document a check-in writes for a request, with the status it was
    classified under. *)
Definition record_of (req session : value) (w : world) (st : string)
    (verified : bool) (more : list (string * value)) : value :=
  attempt (field req "studentId") (field req "studentName") session
          (field req "sessionToken") (stamp session w) st verified more.

(** The call reaches the client-location step: both parameters are given,
    the session exists and is let through by the expiry step, and no record
    is stored yet for the pair. *)
Definition reaches_location_step (req : value) (w : world) (session : value) : Prop :=
  truthy (field req "sessionToken") = true /\
  truthy (field req "studentId") = true /\
  session_of (field req "sessionToken") w = Some session /\
  unexpired session w /\
  prior_records (field req "sessionToken") (field req "studentId") w = [].

(** The call reaches the distance evaluation: moreover the client location
    and the session's geofence centre both carry two Numbers. *)
Definition reaches_distance_step (req : value) (w : world) (session : value) : Prop :=
  reaches_location_step req w session /\
  no_coordinates (field req "location") = false /\
  no_coordinates (get session "location") = false.

(** The call is accepted: the reply is the success with the record and the
    distance, and the record written is the ["present"], verified one that
    carries the distance. *)
Definition accepted (req : value) (w : world) (session : value) : Prop :=
  let d := distance_to (field req "location") session in
  let rec := record_of req session w "present" true
               [("distanceMeters", VNumber d)] in
  fst (checkin req w) =
    reply 200 (VObject [("ok", VBool true); ("verified", VBool true);
                        ("distanceMeters", VNumber d); ("record", rec)]) /\
  wrote_one w (snd (checkin req w)) rec /\
  get rec "status" = VString "present" /\
  get rec "verified" = VBool true /\
  get rec "distanceMeters" = VNumber d.

(** The call is refused as out of range: the reply is the [out_of_range]
    error with the distance and the threshold, and the record written is the
    ["rejected_out_of_range"], unverified one that carries the distance. *)
Definition refused_out_of_range (req : value) (w : world) (session : value) : Prop :=
  let d := distance_to (field req "location") session in
  let rec := record_of req session w "rejected_out_of_range" false
               [("distanceMeters", VNumber d)] in
  fst (checkin req w) =
    reply 400 (VObject [("ok", VBool false); ("error", VString "out_of_range");
                        ("distanceMeters", VNumber d);
                        ("threshold", VNumber (threshold_of session))]) /\
  wrote_one w (snd (checkin req w)) rec /\
  get rec "status" = VString "rejected_out_of_range" /\
  get rec "verified" = VBool false /\
  get rec "distanceMeters" = VNumber d.

(** The replies of a check-in that writes nothing. *)
Definition replies_without_write : list response :=
  [ reply 400 (error_body "missing_params");
    reply 400 (error_body "invalid_session");
    reply 400 (error_body "session_expired");
    reply 200 (error_body "already_checked_in");
    reply 500 (error_body "server_error") ].

(** The status of the record a check-in writes, against its reply. *)
Definition classified (rec : value) (r : response) : Prop :=
  (get rec "status" = VString "rejected_no_location" /\
   r = reply 400 (error_body "location_required")) \/
  (get rec "status" = VString "rejected_no_session_location" /\
   r = reply 400 (error_body "session_has_no_location")) \/
  (get rec "status" = VString "rejected_out_of_range" /\
   status r = 400%Z /\ get (body r) "error" = VString "out_of_range") \/
  (get rec "status" = VString "present" /\
   status r = 200%Z /\ get (body r) "ok" = VBool true).

(** A student identifier: a non-empty string, a Number other than zero and
    NaN, or [true]; that is, a truthy value that is not an object. *)
Definition identifier (v : value) : bool :=
  match v with
  | VString s => negb (String.eqb s "")
  | VNumber n => negb (is_zero n || is_nan n)
  | VBool b => b
  | _ => false
  end.


(** The attendance documents of a session. *)
Definition session_records (sessionId : value) (w : world) : list value :=
  filter (field_is "sessionId" sessionId) (attendance w).

(** The roster entries finalization marks absent, given the present set. *)
Definition absentees (presentIds roster : list value) : list value :=
  filter (fun s => truthy (get s "studentId")
                   && negb (set_has presentIds (get s "studentId"))) roster.

(** Their absence documents, stamped with successive clock readings from
    the [n]-th on. *)
Fixpoint absences (sessionId : value) (entries : list value) (n : nat) : list value :=
  match entries with
  | [] => []
  | s :: rest => absence s sessionId (clock n) :: absences sessionId rest (S n)
  end.

(** A value other than [undefined], which Firestore does not store. *)
Definition is_defined (v : value) : bool :=
  match v with
  | VUndefined => false
  | _ => true
  end.

(** A document none of whose fields is [undefined]. *)
Definition no_undefined_field (doc : value) : bool :=
  match doc with
  | VObject fields => forallb (fun kv => is_defined (snd kv)) fields
  | _ => false
  end.

(** A write all of whose documents are such. *)
Definition storable (wr : write) : bool :=
  match wr with
  | SetSession _ doc => no_undefined_field doc
  | AddAttendance doc => no_undefined_field doc
  | CommitBatch docs => forallb no_undefined_field docs
  end.

(** The client stands at the session's geofence centre: both locations
    carry the Numbers [lat] and [lng]. *)
Definition at_geofence_centre (location session : value) (lat lng : number) : Prop :=
  get location "lat" = VNumber lat /\ get location "lng" = VNumber lng /\
  get (get session "location") "lat" = VNumber lat /\
  get (get session "location") "lng" = VNumber lng.

End Vocabulary.

(** The identifiers of the closed examples: doc, docx, docxx, ... *)
Definition example_id (n : nat) : string :=
  ("doc" ++ String.string_of_list_ascii (repeat "x"%char n))%string.

Lemma example_id_plain (n : nat) : plain_id (example_id n) = true.
Proof.
  unfold plain_id, example_id. simpl.
  induction n as [ | n IH ]; [ reflexivity | exact IH ].
Qed.

(** A host for the closed examples: the small-angle approximations
    sin x = x, cos x = 1, atan2(y, x) = y / x, and the exact product for a
    square.  No example converts between strings and Numbers. *)
Definition small_angle_host : Host := {|
  approx_sin := fun x => x;
  approx_cos := fun _ => one;
  approx_atan2 := fun y x => (y / x)%float;
  approx_pow := fun b _ => (b * b)%float;
  StringToNumber := fun _ => NaN;
  NumberToString := fun _ => "NaN"%string;
  clock := fun n => of_Z (1700000000000 + Z.of_nat n);
  autoId := example_id;
  autoId_plain := example_id_plain
|}.

(** What the distance properties ask of the host, on finite arguments: a
    sine approximation that is odd, a square that does not depend on the
    sign of its base, and a cosine approximation of magnitude at most one. *)
Record Math_laws (H : Host) : Prop := {
  sin_odd : forall x, is_finite x = true ->
    approx_sin (- x)%float = (- approx_sin x)%float;
  square_even : forall x, is_finite x = true ->
    approx_pow (- x)%float (of_Z 2) = approx_pow x (of_Z 2);
  cos_range : forall x, is_finite x = true ->
    (abs (approx_cos x) <=? one)%float = true
}.

(** A coordinate pair in degrees: a latitude of magnitude at most 90 and a
    longitude of magnitude at most 180 (so neither is NaN or infinite). *)
Definition coordinate (lat lon : number) : bool :=
  (abs lat <=? of_Z 90)%float && (abs lon <=? of_Z 180)%float.

(** A finite binary64 value of magnitude below [2 ^ B], on its
    specification: zero, or a mantissa whose top bit is below [B]. *)
Definition bounded_by (B : Z) (f : spec_float) : Prop :=
  match f with
  | S754_zero _ => True
  | S754_finite _ m e => (Z.pos (digits2_pos m) + e <= B)%Z
  | _ => False
  end.

(** The scenario of the specification, run on an empty store: a session for
    CS101 with geofence centre (12.9716, 77.5946), the default threshold and
    an expiry two clock readings ahead; a student checking in from the
    centre; a student checking in from (12.98, 77.60). *)
Module Scenario.
Local Open Scope string_scope.
#[local] Set Warnings "-inexact-float".

Definition empty : world := mkWorld [] [] [] 0 0 [].

Definition centre : value :=
  VObject [("lat", VNumber 12.9716%float); ("lng", VNumber 77.5946%float)].

Definition create_request : value :=
  VObject [("courseId", VString "CS101");
           ("expiresAt", VNumber (of_Z 1700000000002));
           ("location", centre)].

Definition created : world :=
  Eval vm_compute in snd (createSession (H := small_angle_host) create_request empty).

Definition session : value :=
  VObject [("courseId", VString "CS101");
           ("startTs", VNumber (of_Z 1700000000000));
           ("expiresAt", VNumber (of_Z 1700000000002));
           ("token", VString "doc");
           ("createdAt", VNumber (of_Z 1700000000001));
           ("location", centre);
           ("thresholdMeters", VNumber (of_Z 100))].

Definition at_centre : value :=
  VObject [("sessionToken", VString "doc"); ("studentId", VString "s1");
           ("studentName", VString "Asha"); ("location", centre)].

Definition far_away : value :=
  VObject [("sessionToken", VString "doc"); ("studentId", VString "s2");
           ("location", VObject [("lat", VNumber 12.98%float);
                                 ("lng", VNumber 77.6%float)])].

Definition stranger : value :=
  VObject [("sessionToken", VString "nope"); ("studentId", VString "s1")].

Definition checked_in : world :=
  Eval vm_compute in snd (checkin (H := small_angle_host) at_centre created).

(** The store after that check-in, with a roster of three students, and a
    finalization request for the session. *)
Definition roster : list value :=
  [ VObject [("studentId", VString "s1"); ("name", VString "Asha");
             ("courseId", VString "CS101")];
    VObject [("studentId", VString "s2"); ("name", VString "Bala");
             ("courseId", VString "CS101")];
    VObject [("studentId", VString "s3"); ("courseId", VString "CS101")] ].

Definition enrolled : world :=
  mkWorld (sessions checked_in) (attendance checked_in) roster
          (clock_reads checked_in) (ids_drawn checked_in) (issued checked_in).

Definition finalize_request : value := VObject [("sessionId", VString "doc")].

(** A session without a geofence centre, and one whose [expiresAt] was
    supplied as an object with a [toString] field. *)
Definition bare_request : value := VObject [("courseId", VString "CS101")].

Definition bare : world :=
  Eval vm_compute in snd (createSession (H := small_angle_host) bare_request empty).

Definition odd_request : value :=
  VObject [("courseId", VString "CS101");
           ("expiresAt", VObject [("toString", VNumber (of_Z 1))])].

Definition odd : world :=
  Eval vm_compute in snd (createSession (H := small_angle_host) odd_request empty).

(** The same geofence with an expiry an hour ahead; the student at
    (12.98, 77.60) is refused there, and then tries again from the centre. *)
Definition hour_request : value :=
  VObject [("courseId", VString "CS101");
           ("expiresAt", VNumber (of_Z 1700003600000));
           ("location", centre)].

Definition hour : world :=
  Eval vm_compute in snd (createSession (H := small_angle_host) hour_request empty).

Definition hour_session : value :=
  VObject [("courseId", VString "CS101");
           ("startTs", VNumber (of_Z 1700000000000));
           ("expiresAt", VNumber (of_Z 1700003600000));
           ("token", VString "doc");
           ("createdAt", VNumber (of_Z 1700000000001));
           ("location", centre);
           ("thresholdMeters", VNumber (of_Z 100))].

Definition refused : world :=
  Eval vm_compute in snd (checkin (H := small_angle_host) far_away hour).

(** The record of that refusal. *)
Definition refusal : value :=
  Eval vm_compute in nth 0 (attendance refused) VUndefined.

Definition second_try : value :=
  VObject [("sessionToken", VString "doc"); ("studentId", VString "s2");
           ("location", centre)].

(** A check-in that sends an infinite latitude, as the JSON number 1e999
    is parsed. *)
Definition beyond : value :=
  VObject [("sessionToken", VString "doc"); ("studentId", VString "s5");
           ("location", VObject [("lat", VNumber infinity);
                                 ("lng", VNumber (of_Z 0))])].

(** Check-ins whose token is the Number 5, and the path a/b. *)
Definition numbered : value :=
  VObject [("sessionToken", VNumber (of_Z 5)); ("studentId", VString "s1")].

Definition slashed : value :=
  VObject [("sessionToken", VString "a/b"); ("studentId", VString "s1")].

(** A check-in whose location carries its latitude as a string. *)
Definition ill_typed : value :=
  VObject [("sessionToken", VString "doc"); ("studentId", VString "s1");
           ("location", VObject [("lat", VString "12.9716");
                                 ("lng", VNumber 77.5946%float)])].

(** The session stored by the request that names only a course. *)
Definition bare_session : value :=
  VObject [("courseId", VString "CS101");
           ("startTs", VNumber (of_Z 1700000000000));
           ("expiresAt", VNumber (of_Z 1700000900001));
           ("token", VString "doc");
           ("createdAt", VNumber (of_Z 1700000000002));
           ("location", VNull);
           ("thresholdMeters", VNumber (of_Z 100))].

(** A check-in that sends no location. *)
Definition nowhere : value :=
  VObject [("sessionToken", VString "doc"); ("studentId", VString "s4")].

End Scenario.

(** * Properties *)

(** ** Binary64 at the level of its specification

    Facts about the [SpecFloat] operations that the primitive operations are
    specified by: how they treat the sign, and how large a rounded result
    can be. *)

Module SF.
Local Open Scope Z_scope.
#[local] Unset Implicit Arguments.

(** *** Sign symmetry *)

Lemma round_aux_opp (s : bool) (m e : Z) (l : location) :
  binary_round_aux prec emax (negb s) m e l = SFopp (binary_round_aux prec emax s m e l).
Proof.
  unfold binary_round_aux.
  destruct (shr_fexp prec emax m e l) as [mrs' e'].
  destruct (shr_fexp prec emax _ e' loc_Exact) as [mrs'' e''].
  destruct (shr_m mrs''); try reflexivity.
  destruct (e'' <=? emax - prec); reflexivity.
Qed.

Lemma round_opp (s : bool) (m : positive) (e : Z) :
  binary_round prec emax (negb s) m e = SFopp (binary_round prec emax s m e).
Proof.
  unfold binary_round. destruct (shl_align _ _ _). apply round_aux_opp.
Qed.

Lemma SFmul_opp_l x y : SFmul prec emax (SFopp x) y = SFopp (SFmul prec emax x y).
Proof.
  destruct x as [sx|sx| |sx mx ex], y as [sy|sy| |sy my ey]; simpl;
    rewrite <- ?negb_xorb_l; try reflexivity.
  apply round_aux_opp.
Qed.

Lemma SFdiv_opp_l x y : SFdiv prec emax (SFopp x) y = SFopp (SFdiv prec emax x y).
Proof.
  destruct x as [sx|sx| |sx mx ex], y as [sy|sy| |sy my ey]; simpl;
    rewrite <- ?negb_xorb_l; try reflexivity.
  destruct (SFdiv_core_binary _ _ _ _ _ _) as [[mz ez] lz]. apply round_aux_opp.
Qed.

Lemma SFmul_comm x y : SFmul prec emax x y = SFmul prec emax y x.
Proof.
  destruct x as [sx|sx| |sx mx ex], y as [sy|sy| |sy my ey]; simpl;
    rewrite ?(xorb_comm sy sx); try reflexivity.
  rewrite (Pos.mul_comm my mx), (Z.add_comm ey ex). reflexivity.
Qed.

Lemma normalize_opp (m e : Z) :
  m <> 0 ->
  binary_normalize prec emax (- m) e false = SFopp (binary_normalize prec emax m e false).
Proof.
  destruct m as [ | p | p ]; intros Hm; [ congruence | | ]; simpl.
  - apply (round_opp false).
  - change false with (negb true) at 1. rewrite <- (round_opp true). reflexivity.
Qed.

Lemma SFsub_swap x y :
  SFsub prec emax y x = SFopp (SFsub prec emax x y) \/
  (SFsub prec emax x y = S754_zero false /\ SFsub prec emax y x = S754_zero false).
Proof.
  destruct x as [sx|sx| |sx mx ex], y as [sy|sy| |sy my ey]; simpl;
    try (left; reflexivity);
    try (destruct sx, sy; simpl; auto; fail);
    try (destruct sx; simpl; auto; fail); try (destruct sy; simpl; auto; fail).
  rewrite (Z.min_comm ey ex).
  set (a := cond_Zopp sx (Z.pos (fst (shl_align mx ex (Z.min ex ey))))).
  set (b := cond_Zopp sy (Z.pos (fst (shl_align my ey (Z.min ex ey))))).
  destruct (Z.eq_dec (a - b) 0) as [E | E].
  - right. replace (b - a) with 0 by lia. rewrite E. split; reflexivity.
  - left. replace (b - a) with (- (a - b)) by lia. apply normalize_opp. exact E.
Qed.

Lemma SFsub_self x : 
  match x with S754_zero _ | S754_finite _ _ _ => True | _ => False end ->
  SFsub prec emax x x = S754_zero false.
Proof.
  destruct x as [s|s| |s m e]; simpl; try tauto; intros _.
  - destruct s; reflexivity.
  - rewrite Z.sub_diag. reflexivity.
Qed.

(** *** Magnitude of a rounded result *)

(** The number of binary digits of a mantissa. *)
Lemma digits2_size (p : positive) : digits2_pos p = Pos.size p.
Proof. induction p; simpl; congruence. Qed.

Lemma Zdigits2_nonneg m : 0 <= Zdigits2 m.
Proof. destruct m; simpl; lia. Qed.

Lemma Zdigits2_lt_pow m : 0 <= m -> m < 2 ^ Zdigits2 m.
Proof.
  destruct m as [ | p | p ]; simpl; intros Hm; try lia.
  rewrite digits2_size. pose proof (Pos.size_gt p) as Hgt.
  apply Pos2Z.pos_lt_pos in Hgt. rewrite Pos2Z.inj_pow in Hgt. exact Hgt.
Qed.

Lemma Zdigits2_le_of_lt_pow m k : 0 <= m -> 0 <= k -> m < 2 ^ k -> Zdigits2 m <= k.
Proof.
  destruct m as [ | p | p ]; simpl; intros Hm Hk Hlt; try lia.
  rewrite digits2_size. pose proof (Pos.size_le p) as Hle.
  apply Pos2Z.pos_le_pos in Hle. rewrite Pos2Z.inj_pow in Hle.
  destruct (Z_lt_le_dec k (Z.pos (Pos.size p))) as [Hc | Hc]; [ exfalso | exact Hc ].
  assert (2 ^ (k + 1) <= 2 ^ Z.pos (Pos.size p)) by (apply Z.pow_le_mono_r; lia).
  rewrite Z.pow_add_r in H by lia. simpl in Hle. lia.
Qed.

Lemma Zdigits2_mono m m' : 0 <= m <= m' -> Zdigits2 m <= Zdigits2 m'.
Proof.
  intros [Hm Hle]. apply Zdigits2_le_of_lt_pow; try lia.
  - apply Zdigits2_nonneg.
  - pose proof (Zdigits2_lt_pow m'). lia.
Qed.

Lemma Zdigits2_succ m : 0 <= m -> Zdigits2 (m + 1) <= Zdigits2 m + 1.
Proof.
  intros Hm. apply Zdigits2_le_of_lt_pow; try lia.
  - pose proof (Zdigits2_nonneg m). lia.
  - pose proof (Zdigits2_lt_pow m Hm). rewrite Z.pow_add_r; try lia.
    apply Zdigits2_nonneg.
Qed.

Lemma Zdigits2_mul a b : 0 <= a -> 0 <= b -> Zdigits2 (a * b) <= Zdigits2 a + Zdigits2 b.
Proof.
  intros Ha Hb. pose proof (Zdigits2_nonneg a). pose proof (Zdigits2_nonneg b).
  apply Zdigits2_le_of_lt_pow; try lia.
  rewrite Z.pow_add_r by lia.
  pose proof (Zdigits2_lt_pow a Ha). pose proof (Zdigits2_lt_pow b Hb). nia.
Qed.

Lemma Zdigits2_pos q : 0 < q -> 1 <= Zdigits2 q.
Proof. destruct q; simpl; lia. Qed.

Lemma Zdigits2_ge_pow q : 0 < q -> 2 ^ (Zdigits2 q - 1) <= q.
Proof.
  destruct q as [ | q | q ]; try lia. intros _. simpl.
  rewrite digits2_size. pose proof (Pos.size_le q) as Hle.
  apply Pos2Z.pos_le_pos in Hle. rewrite Pos2Z.inj_pow in Hle.
  replace (Z.pos (Pos.size q)) with ((Z.pos (Pos.size q) - 1) + 1) in Hle at 1 by lia.
  rewrite Z.pow_add_r in Hle by lia. simpl in Hle. lia.
Qed.

Lemma Zdigits2_div_pow m n : 0 <= m -> 0 < n -> 0 < m / 2 ^ n ->
  Zdigits2 (m / 2 ^ n) + n <= Zdigits2 m.
Proof.
  intros Hm Hn Hq.
  destruct (Z_lt_le_dec (Zdigits2 m) (Zdigits2 (m / 2 ^ n) + n)) as [Hc | Hc]; [ exfalso | lia ].
  pose proof (Zdigits2_lt_pow m Hm) as Hlt.
  pose proof (Zdigits2_pos _ Hq) as Hdq.
  pose proof (Zdigits2_ge_pow _ Hq) as Hlow.
  assert (Hpow : 2 ^ Zdigits2 m <= 2 ^ (Zdigits2 (m / 2 ^ n) - 1 + n)) by (apply Z.pow_le_mono_r; lia).
  rewrite Z.pow_add_r in Hpow by lia.
  assert (H2n : 0 < 2 ^ n) by (apply Z.pow_pos_nonneg; lia).
  pose proof (Z.mul_div_le m (2 ^ n) H2n). nia.
Qed.

(** Shifting a mantissa right divides it by a power of two. *)
Lemma shr_1_m r : 0 <= shr_m r -> shr_m (shr_1 r) = shr_m r / 2.
Proof.
  destruct r as [m r s]. destruct m as [ | [p|p| ] | p ];
    cbn [shr_m shr_1]; intros Hm; try lia.
  - reflexivity.
  - apply Z.div_unique with 1; lia.
  - apply Z.div_unique with 0; lia.
  - reflexivity.
Qed.

Lemma iter_shr_m p : forall r, 0 <= shr_m r ->
  shr_m (SpecFloat.iter_pos shr_1 p r) = shr_m r / 2 ^ Z.pos p.
Proof.
  induction p as [p IH | p IH | ]; intros r Hr; simpl SpecFloat.iter_pos.
  - assert (H2p : 0 < 2 ^ Z.pos p) by (apply Z.pow_pos_nonneg; lia).
    assert (H1 : 0 <= shr_m (shr_1 r)) by (rewrite shr_1_m by lia; apply Z.div_pos; lia).
    assert (H2 : 0 <= shr_m (SpecFloat.iter_pos shr_1 p (shr_1 r)))
      by (rewrite IH by lia; apply Z.div_pos; lia).
    rewrite IH, IH, shr_1_m by lia.
    rewrite !Z.div_div by lia.
    f_equal. assert (E : Z.pos p~1 = 1 + Z.pos p + Z.pos p) by lia.
    rewrite E, !Z.pow_add_r by lia. rewrite Z.pow_1_r. lia.
  - assert (H2p : 0 < 2 ^ Z.pos p) by (apply Z.pow_pos_nonneg; lia).
    assert (H2 : 0 <= shr_m (SpecFloat.iter_pos shr_1 p r))
      by (rewrite IH by lia; apply Z.div_pos; lia).
    rewrite IH, IH by lia.
    rewrite !Z.div_div by lia.
    f_equal. assert (E : Z.pos p~0 = Z.pos p + Z.pos p) by lia.
    rewrite E, Z.pow_add_r by lia. reflexivity.
  - rewrite shr_1_m by lia. reflexivity.
Qed.

Lemma shr_record_m m l : shr_m (shr_record_of_loc m l) = m.
Proof. destruct l as [ | [ | | ] ]; reflexivity. Qed.

(** What [shr_fexp] returns: the exponent it settles on, and a mantissa
    whose top bit has not moved up. *)
Lemma shr_fexp_spec m e l : 0 <= m ->
  let '(r, e') := shr_fexp prec emax m e l in
  0 <= shr_m r /\ e' = Z.max e (fexp prec emax (Zdigits2 m + e)) /\
  (shr_m r = 0 \/ Zdigits2 (shr_m r) + e' <= Zdigits2 m + e).
Proof.
  intros Hm. unfold shr_fexp, shr.
  destruct (fexp prec emax (Zdigits2 m + e) - e) as [ | n | n ] eqn:En.
  - rewrite shr_record_m. repeat split; try lia.
  - rewrite iter_shr_m by (rewrite shr_record_m; lia). rewrite shr_record_m.
    assert (H2n : 0 < 2 ^ Z.pos n) by (apply Z.pow_pos_nonneg; lia).
    repeat split; try lia.
    + apply Z.div_pos; lia.
    + assert (Hq : 0 <= m / 2 ^ Z.pos n) by (apply Z.div_pos; lia).
      destruct (Z.eq_dec (m / 2 ^ Z.pos n) 0) as [E0 | E0]; [ left; exact E0 | right ].
      pose proof (Zdigits2_div_pow m (Z.pos n) Hm). lia.
  - rewrite shr_record_m. repeat split; try lia.
Qed.

Lemma round_nearest_even_bounds m l : 0 <= m ->
  m <= round_nearest_even m l <= m + 1.
Proof.
  intros Hm. destruct l as [ | [ | | ] ]; simpl; try lia.
  destruct (Z.even m); lia.
Qed.

Lemma round_aux_bounded (s : bool) (m e : Z) (l : location) (B : Z) :
  0 <= m -> e <= emax - prec -> Zdigits2 m + e <= B ->
  -1074 <= B -> B + 1 <= emax ->
  bounded_by (B + 1) (binary_round_aux prec emax s m e l).
Proof.
  intros Hm He HD HB1 HB2. unfold binary_round_aux.
  pose proof (shr_fexp_spec m e l Hm) as H1.
  destruct (shr_fexp prec emax m e l) as [r1 e1]. destruct H1 as (Hr1 & He1 & HD1).
  set (m1 := round_nearest_even (shr_m r1) (loc_of_shr_record r1)).
  pose proof (round_nearest_even_bounds (shr_m r1) (loc_of_shr_record r1) Hr1) as Hm1.
  fold m1 in Hm1.
  assert (Hm1' : 0 <= m1) by lia.
  pose proof (shr_fexp_spec m1 e1 loc_Exact Hm1') as H2.
  destruct (shr_fexp prec emax m1 e1 loc_Exact) as [r2 e2]. destruct H2 as (Hr2 & He2 & HD2).
  assert (Hfexp : forall z, fexp prec emax z = Z.max (z - 53) (-1074)) by reflexivity.
  assert (HDm1 : Zdigits2 m1 + e1 <= B + 1).
  { assert (Zdigits2 m1 <= Zdigits2 (shr_m r1) + 1).
    { transitivity (Zdigits2 (shr_m r1 + 1)); [ apply Zdigits2_mono; lia | apply Zdigits2_succ; lia ]. }
    destruct HD1 as [E0 | HD1].
    - rewrite E0 in *. simpl in H. rewrite He1, Hfexp. 
      pose proof (Zdigits2_nonneg m). lia.
    - lia. }
  destruct (shr_m r2) as [ | p | p ] eqn:Ep; [ exact I | | lia ].
  assert (He2' : (e2 <=? emax - prec) = true).
  { apply Z.leb_le. rewrite He2, Hfexp. rewrite He1, Hfexp in *.
    unfold emax, prec in *. lia. }
  rewrite He2'. cbn [bounded_by].
  destruct HD2 as [E0 | HD2]; [ lia | ]. cbn [Zdigits2] in HD2. lia.
Qed.

Lemma SFmul_bounded x y Bx By :
  bounded_by Bx x -> bounded_by By y ->
  -1074 <= Bx + By -> Bx + By <= 972 ->
  bounded_by (Bx + By + 1) (SFmul prec emax x y).
Proof.
  destruct x as [sx|sx| |sx mx ex], y as [sy|sy| |sy my ey];
    cbn [bounded_by SFmul]; try tauto; intros Hx Hy Hlo Hhi.
  pose proof (Pos2Z.is_pos (digits2_pos mx)).
  pose proof (Pos2Z.is_pos (digits2_pos my)).
  apply round_aux_bounded.
  - lia.
  - unfold emax, prec. lia.
  - pose proof (Zdigits2_mul (Z.pos mx) (Z.pos my) ltac:(lia) ltac:(lia)) as Hm.
    cbn [Zdigits2 Z.mul] in Hm. cbn [Zdigits2]. lia.
  - lia.
  - unfold emax. lia.
Qed.

Lemma SFdiv_bounded x sy my ey Bx :
  bounded_by Bx x ->
  -1074 <= Bx - ey -> Bx - ey <= 972 ->
  bounded_by (Bx - ey + 1) (SFdiv prec emax x (S754_finite sy my ey)).
Proof.
  destruct x as [sx|sx| |sx mx ex]; cbn [bounded_by SFdiv]; try tauto;
    intros Hx Hlo Hhi.
  unfold SFdiv_core_binary.
  set (e' := Z.min _ _).
  assert (He' : e' <= ex - ey) by (subst e'; apply Z.le_min_r).
  remember (ex - ey - e') as s eqn:Es.
  remember (match s with Z.pos _ => Z.shiftl (Z.pos mx) s | 0 => Z.pos mx | Z.neg _ => 0 end)
    as m' eqn:Em'.
  assert (Hs : 0 <= s) by lia.
  assert (Hm' : m' = Z.pos mx * 2 ^ s).
  { rewrite Em'. clear Em' Es. destruct s as [ | p | p ]; try lia.
    apply Z.shiftl_mul_pow2. lia. }
  assert (H2s : 0 < 2 ^ s) by (apply Z.pow_pos_nonneg; lia).
  assert (Hm'pos : 0 <= m') by (rewrite Hm'; lia).
  pose proof (Z.div_eucl_eq m' (Z.pos my) ltac:(lia)) as Heq.
  pose proof (Z.mod_pos_bound m' (Z.pos my) ltac:(lia)) as Hmod.
  unfold Z.modulo in Hmod.
  destruct (Z.div_eucl m' (Z.pos my)) as [q r] eqn:Eqr.
  assert (Hq : 0 <= q <= m') by nia.
  pose proof (Pos2Z.is_pos (digits2_pos mx)).
  apply round_aux_bounded.
  - lia.
  - unfold emax, prec. lia.
  - assert (Zdigits2 q <= Zdigits2 (Z.pos mx) + s).
    { transitivity (Zdigits2 m'); [ apply Zdigits2_mono; lia | ].
      apply Zdigits2_le_of_lt_pow; try lia.
      - pose proof (Zdigits2_nonneg (Z.pos mx)). lia.
      - rewrite Hm', Z.pow_add_r; try lia.
        + pose proof (Zdigits2_lt_pow (Z.pos mx) ltac:(lia)). nia.
        + apply Zdigits2_nonneg. }
    cbn [Zdigits2] in H0. lia.
  - lia.
  - unfold emax. lia.
Qed.

(** A valid number of magnitude at most a positive number with exponent [ec]. *)
Lemma valid_le_bounded x mc ec :
  valid_binary x = true ->
  SFleb (SFabs x) (S754_finite false mc ec) = true ->
  bounded_by (53 + ec) x.
Proof.
  destruct x as [s|s| |s m e]; cbn [SpecFloat.valid_binary SFabs bounded_by];
    try tauto; try discriminate.
  intros Hv Hle. unfold bounded, canonical_mantissa in Hv.
  apply andb_prop in Hv. destruct Hv as [Hc _]. apply Z.eqb_eq in Hc.
  assert (Hf : fexp prec emax (Z.pos (digits2_pos m) + e)
               = Z.max (Z.pos (digits2_pos m) + e - 53) (-1074)) by reflexivity.
  rewrite Hf in Hc.
  pose proof (Z.le_max_l (Z.pos (digits2_pos m) + e - 53) (-1074)) as Hmax.
  rewrite Hc in Hmax. unfold SFleb, SFcompare in Hle.
  destruct (e ?= ec) eqn:E; try discriminate.
  - apply Z.compare_eq in E. lia.
  - rewrite Z.compare_lt_iff in E. lia.
Qed.

End SF.

(** ** Binary64 comparisons and NaN *)

Module F64.
Local Open Scope float_scope.

Lemma SFcompare_antisym (x y : spec_float) :
  SFcompare y x = option_map CompOpp (SFcompare x y).
Proof.
  destruct x as [sx|sx| |sx mx ex], y as [sy|sy| |sy my ey]; simpl;
    try reflexivity;
    try (destruct sx; reflexivity); try (destruct sy; reflexivity);
    try (destruct sx, sy; reflexivity).
  destruct sx, sy; simpl; try reflexivity;
    rewrite (Z.compare_antisym ex ey);
    destruct (ex ?= ey)%Z eqn:E; simpl; try reflexivity;
    change (Pos.compare_cont Eq my mx) with (Pos.compare my mx);
    change (Pos.compare_cont Eq mx my) with (Pos.compare mx my);
    rewrite (Pos.compare_antisym mx my);
    destruct (mx ?= my)%positive; reflexivity.
Qed.

Lemma SFcompare_refl (x : spec_float) :
  x <> S754_nan -> SFcompare x x = Some Eq.
Proof.
  destruct x as [s|s| |s m e]; simpl; intros Hx;
    try reflexivity; try (destruct s; reflexivity); try congruence.
  destruct s; rewrite Z.compare_refl;
    change (Pos.compare_cont Eq m m) with (Pos.compare m m);
    rewrite Pos.compare_refl; reflexivity.
Qed.

Lemma is_nan_spec (x : float) : is_nan x = true <-> Prim2SF x = S754_nan.
Proof.
  unfold is_nan. rewrite eqb_spec. unfold SFeqb. split.
  - intros Hn. destruct (Prim2SF x) eqn:E; try reflexivity;
      rewrite SFcompare_refl in Hn by discriminate; discriminate.
  - intros ->. reflexivity.
Qed.

(** [d <= t] rules out [d > t]. *)
Lemma leb_not_gt (d t : float) : (d <=? t) = true -> (t <? d) = false.
Proof.
  rewrite leb_spec, ltb_spec. unfold SFleb, SFltb.
  rewrite (SFcompare_antisym (Prim2SF d) (Prim2SF t)).
  destruct (SFcompare (Prim2SF d) (Prim2SF t)) as [[ | | ]|]; simpl;
    intros; congruence.
Qed.


(** No comparison with NaN holds. *)
Lemma nan_not_gt (t : float) : (t <? nan) = false.
Proof.
  rewrite ltb_spec. change (Prim2SF nan) with S754_nan.
  unfold SFltb. destruct (Prim2SF t); reflexivity.
Qed.

(** NaN is absorbing for the arithmetic operations. *)
Lemma sub_nan_r (x : float) : x - nan = nan.
Proof.
  apply Prim2SF_inj. rewrite sub_spec. change (Prim2SF nan) with S754_nan.
  unfold SF64sub. destruct (Prim2SF x); reflexivity.
Qed.

Lemma add_nan_l (x : float) : nan + x = nan.
Proof.
  apply Prim2SF_inj. rewrite add_spec. change (Prim2SF nan) with S754_nan.
  reflexivity.
Qed.

(** The classification tests, read on the specification. *)
Lemma is_nan_SF (x : float) :
  is_nan x = match Prim2SF x with S754_nan => true | _ => false end.
Proof.
  destruct (is_nan x) eqn:E.
  - apply is_nan_spec in E. rewrite E. reflexivity.
  - destruct (Prim2SF x) eqn:Ex; try reflexivity.
    apply is_nan_spec in Ex. congruence.
Qed.

Lemma is_zero_SF (x : float) :
  is_zero x = match Prim2SF x with S754_zero _ => true | _ => false end.
Proof.
  unfold is_zero. rewrite eqb_spec. change (Prim2SF zero) with (S754_zero false).
  destruct (Prim2SF x) as [s|s| |s m e]; try reflexivity; destruct s; reflexivity.
Qed.

Lemma is_infinity_SF (x : float) :
  is_infinity x = match Prim2SF x with S754_infinity _ => true | _ => false end.
Proof.
  unfold is_infinity. rewrite eqb_spec, abs_spec.
  change (Prim2SF infinity) with (S754_infinity false).
  destruct (Prim2SF x) as [s|s| |s m e]; reflexivity.
Qed.

Lemma is_finite_SF (x : float) :
  is_finite x = match Prim2SF x with
                | S754_zero _ | S754_finite _ _ _ => true
                | _ => false
                end.
Proof.
  unfold is_finite. rewrite is_nan_SF, is_infinity_SF.
  destruct (Prim2SF x); reflexivity.
Qed.

Lemma leibniz_SF (x c : float) :
  Leibniz.eqb x c = true <-> Prim2SF x = Prim2SF c.
Proof.
  rewrite Leibniz.eqb_spec. split; [ congruence | apply Prim2SF_inj ].
Qed.

Lemma leibniz_ne (x c : float) : Prim2SF x <> Prim2SF c -> Leibniz.eqb x c = false.
Proof.
  intros Hne. destruct (Leibniz.eqb x c) eqn:E; [ | reflexivity ].
  apply leibniz_SF in E. contradiction.
Qed.

(** Sign symmetry of the primitive operations. *)
Lemma mul_opp_l (x y : float) : (- x) * y = - (x * y).
Proof. apply Prim2SF_inj. rewrite mul_spec, !opp_spec, mul_spec. apply SF.SFmul_opp_l. Qed.

Lemma div_opp_l (x y : float) : (- x) / y = - (x / y).
Proof. apply Prim2SF_inj. rewrite div_spec, !opp_spec, div_spec. apply SF.SFdiv_opp_l. Qed.

Lemma mul_comm (x y : float) : x * y = y * x.
Proof. apply Prim2SF_inj. rewrite !mul_spec. apply SF.SFmul_comm. Qed.

Lemma sub_swap (x y : float) :
  y - x = - (x - y) \/ (x - y = zero /\ y - x = zero).
Proof.
  destruct (SF.SFsub_swap (Prim2SF x) (Prim2SF y)) as [E | [E1 E2]].
  - left. apply Prim2SF_inj. rewrite opp_spec, !sub_spec. exact E.
  - right. split; apply Prim2SF_inj; rewrite sub_spec; assumption.
Qed.

Lemma sub_self (x : float) : is_finite x = true -> x - x = zero.
Proof.
  rewrite is_finite_SF. intros Hf. apply Prim2SF_inj. rewrite sub_spec.
  apply SF.SFsub_self. destruct (Prim2SF x); (exact I || discriminate).
Qed.

Lemma opp_opp (x : float) : - - x = x.
Proof.
  apply Prim2SF_inj. rewrite !opp_spec. destruct (Prim2SF x) as [s|s| |s m e]; simpl;
    rewrite ?negb_involutive; reflexivity.
Qed.

Lemma add_nan_r (x : float) : x + nan = nan.
Proof.
  apply Prim2SF_inj. rewrite add_spec. change (Prim2SF nan) with S754_nan.
  destruct (Prim2SF x); reflexivity.
Qed.

Lemma mul_nan_r (x : float) : x * nan = nan.
Proof.
  apply Prim2SF_inj. rewrite mul_spec. change (Prim2SF nan) with S754_nan.
  destruct (Prim2SF x); reflexivity.
Qed.

(** A value that is not finite is NaN or an infinity. *)
Lemma not_finite_eq (x : float) :
  is_finite x = false -> x = nan \/ x = infinity \/ x = neg_infinity.
Proof.
  rewrite is_finite_SF. intros Hx.
  destruct (Prim2SF x) as [s|s| |s m e] eqn:E; try discriminate.
  - destruct s; [ right; right | right; left ]; apply Prim2SF_inj; rewrite E; reflexivity.
  - left. apply Prim2SF_inj. rewrite E. reflexivity.
Qed.

(** A difference with an operand that is not finite is not finite. *)
Lemma sub_not_finite (x y : float) :
  is_finite x = false \/ is_finite y = false -> is_finite (y - x) = false.
Proof.
  rewrite !is_finite_SF, sub_spec. unfold SF64sub.
  destruct (Prim2SF x) as [sx|sx| |sx mx ex], (Prim2SF y) as [sy|sy| |sy my ey];
    simpl; intros [Hx | Hy]; try discriminate; try reflexivity;
    destruct sx, sy; reflexivity.
Qed.

End F64.

(** ** The distance of a NaN coordinate *)

Section HaversineNaN.
Context {H : Host}.

(** A NaN client latitude makes the whole distance NaN, whatever the other
    three coordinates are. *)
Lemma haversine64_nan_latitude (lon1 lat2 lon2 : number) :
  haversineDistance (A := binary64) NaN lon1 lat2 lon2 = NaN.
Proof.
  unfold haversineDistance, toRad, NaN. cbn [sub mul div add pow binary64
    Math_sin Math_cos Math_sqrt Math_atan2 Math_PI lit].
  rewrite F64.sub_nan_r.
  replace (exponentiate (sin64 (nan * PI64 / of_Z 180 / of_Z 2)) (of_Z 2))%float
    with nan by reflexivity.
  rewrite F64.add_nan_l. reflexivity.
Qed.

(** So does an infinite client latitude, which a JSON body can carry
    (1e999 parses to Infinity). *)
Lemma haversine64_infinite_latitude (lon1 lat2 lon2 : number) :
  haversineDistance (A := binary64) infinity lon1 lat2 lon2 = NaN.
Proof.
  assert (Hsub : (lat2 - infinity = neg_infinity \/ lat2 - infinity = nan)%float).
  { assert (Hsf : Prim2SF (lat2 - infinity)%float = S754_infinity true \/
                  Prim2SF (lat2 - infinity)%float = S754_nan).
    { rewrite sub_spec. change (Prim2SF infinity) with (S754_infinity false).
      destruct (Prim2SF lat2) as [s|s| |s m e]; simpl; auto. destruct s; auto. }
    destruct Hsf as [E | E]; [ left | right ]; apply Prim2SF_inj; rewrite E; reflexivity. }
  unfold haversineDistance, toRad, NaN. cbn [sub mul div add pow binary64
    Math_sin Math_cos Math_sqrt Math_atan2 Math_PI lit].
  destruct Hsub as [-> | ->].
  - replace (exponentiate (sin64 (neg_infinity * PI64 / of_Z 180 / of_Z 2)) (of_Z 2))%float
      with nan by reflexivity.
    rewrite F64.add_nan_l. reflexivity.
  - replace (exponentiate (sin64 (nan * PI64 / of_Z 180 / of_Z 2)) (of_Z 2))%float
      with nan by reflexivity.
    rewrite F64.add_nan_l. reflexivity.
Qed.

(** The haversine term of a difference that is not finite is NaN. *)
Lemma hav_not_finite (delta : number) :
  delta = nan \/ delta = infinity \/ delta = neg_infinity -> hav delta = nan.
Proof. intros [-> | [-> | ->]]; reflexivity. Qed.

(** A difference that is not finite, of latitudes or of longitudes, makes
    the distance NaN. *)
Lemma haversine64_wild_difference (lat1 lon1 lat2 lon2 : number) :
  is_finite (lat2 - lat1)%float && is_finite (lon2 - lon1)%float = false ->
  haversineDistance (A := binary64) lat1 lon1 lat2 lon2 = NaN.
Proof.
  intros Hd. unfold haversineDistance, toRad, NaN.
  cbn [sub mul div add pow binary64 Math_sin Math_cos Math_sqrt Math_atan2 Math_PI lit].
  fold (hav (lat2 - lat1)%float). fold (hav (lon2 - lon1)%float).
  apply andb_false_iff in Hd. destruct Hd as [Hd | Hd];
    apply F64.not_finite_eq in Hd; rewrite (hav_not_finite Hd).
  - rewrite F64.add_nan_l. reflexivity.
  - rewrite F64.mul_nan_r, F64.add_nan_r. reflexivity.
Qed.

(** So does a coordinate that is not finite. *)
Lemma haversine64_wild_coordinate (lat1 lon1 lat2 lon2 : number) :
  is_finite lat1 && is_finite lon1 && is_finite lat2 && is_finite lon2 = false ->
  haversineDistance (A := binary64) lat1 lon1 lat2 lon2 = NaN.
Proof.
  intros Hc. apply haversine64_wild_difference. apply andb_false_iff.
  destruct (is_finite lat1) eqn:E1; [ | left; apply F64.sub_not_finite; auto ].
  destruct (is_finite lat2) eqn:E2; [ | left; apply F64.sub_not_finite; auto ].
  right. apply F64.sub_not_finite.
  destruct (is_finite lon1); [ | auto ].
  destruct (is_finite lon2); [ discriminate | auto ].
Qed.

(** X15. In binary64, on any host, [haversineDistance] returns NaN as soon
    as one of its four arguments is NaN or infinite, and no threshold
    compares below that distance. *)
Theorem haversine64_non_finite_coordinate (lat1 lon1 lat2 lon2 : number) :
  is_finite lat1 && is_finite lon1 && is_finite lat2 && is_finite lon2 = false ->
  haversineDistance (A := binary64) lat1 lon1 lat2 lon2 = NaN /\
  (forall t : number,
     (t <? haversineDistance (A := binary64) lat1 lon1 lat2 lon2)%float = false).
Proof.
  intros Hc. rewrite (haversine64_wild_coordinate _ _ _ _ Hc).
  split; [ reflexivity | apply F64.nan_not_gt ].
Qed.

End HaversineNaN.

(** ** Stored values are equal to themselves *)

Lemma same_number_refl (x : number) : same_number x x = true.
Proof.
  unfold same_number, is_nan. destruct (x =? x)%float; reflexivity.
Qed.

Lemma store_eq_refl : forall v : value, store_eq v v = true.
Proof.
  fix IH 1. intros [ | | b | n | s | items | fields ]; simpl.
  - reflexivity.
  - reflexivity.
  - apply Bool.eqb_reflx.
  - apply same_number_refl.
  - apply String.eqb_refl.
  - induction items as [ | x items IHitems ]; [ reflexivity | ].
    rewrite IH, IHitems. reflexivity.
  - induction fields as [ | [k x] fields IHfields ]; [ reflexivity | ].
    rewrite String.eqb_refl, IH, IHfields. reflexivity.
Qed.

(** ** Document references and the session lookup *)

Module Paths.
Local Open Scope string_scope.

Lemma no_slash_no_double (s : string) : has_slash s = false -> double_slash s = false.
Proof.
  induction s as [ | a s IH ]; [ reflexivity | ]. simpl. intros Hs.
  apply orb_false_iff in Hs. destruct Hs as [Ha Hs].
  destruct s as [ | b s' ]; [ reflexivity | ]. rewrite Ha. simpl. apply IH, Hs.
Qed.

Lemma no_slash_one_piece (s piece : string) :
  has_slash s = false -> split_slash piece s = [piece ++ s].
Proof.
  revert piece. induction s as [ | a s IH ]; intros piece Hs; simpl.
  - clear Hs. induction piece as [ | c piece IHp ]; simpl; congruence.
  - simpl in Hs. apply orb_false_iff in Hs. destruct Hs as [Ha Hs].
    rewrite Ha, (IH _ Hs). f_equal.
    clear. induction piece as [ | c piece IHp ]; simpl; congruence.
Qed.

(** [doc] takes a document identifier as the reference of that document. *)
Lemma doc_plain_id (s : string) : plain_id s = true -> doc (VString s) = Some [s].
Proof.
  unfold plain_id, doc, segments. intros Hp. apply andb_prop in Hp.
  destruct Hp as [Hne Hs]. apply negb_true_iff in Hne, Hs.
  rewrite Hne, (no_slash_no_double _ Hs), (no_slash_one_piece _ "" Hs). simpl.
  rewrite Hne. reflexivity.
Qed.

Lemma get_session_refused (token : value) (w : world) :
  doc token = None -> get_session token w = (Throw, w).
Proof. unfold get_session. intros ->. reflexivity. Qed.

Lemma get_session_accepted (token : value) (w : world) (reference : list string) :
  doc token = Some reference ->
  get_session token w = (Normal (session_of token w), w).
Proof. unfold get_session, session_of. intros ->. reflexivity. Qed.

Lemma get_session_found (token : value) (w : world) (session : value) :
  session_of token w = Some session ->
  get_session token w = (Normal (Some session), w).
Proof.
  unfold get_session, session_of. destruct (doc token); [ | discriminate ].
  intros ->. reflexivity.
Qed.

(** The lookup reads the sessions only. *)
Lemma session_of_sessions (token : value) (w w' : world) :
  sessions w' = sessions w -> session_of token w' = session_of token w.
Proof.
  unfold session_of, snapshot. intros ->. reflexivity.
Qed.

(** The session under a generated identifier. *)
Lemma session_of_autoId {H : Host} (n : nat) (w : world) :
  session_of (VString (autoId n)) w = lookup (autoId n) (sessions w).
Proof.
  unfold session_of. rewrite (doc_plain_id _ (autoId_plain n)). reflexivity.
Qed.

End Paths.

(** ** Check-in: the steps before the distance *)

Section Checkin.
Context {H : Host}.
Local Open Scope string_scope.

Ltac run :=
  unfold checkin, try_catch, checkin_body, geo_verify, bind, ret, lift, throw,
    query_attendance, add_attendance, Date_now; cbv zeta.

(** C7, as the handler has it. A check-in that names both parameters
    answers [invalid_session] when [doc] accepts the token as a document
    path and no session is found under it; a token that [doc] refuses (one
    that is not a string, or a path that does not name a document) makes the
    call throw, and the handler's [catch] answers [server_error]; the
    check-in answers [session_expired] when the session's [expiresAt] is set
    and the clock reading exceeds it.  In all three cases nothing is
    written. *)
Theorem checkin_rejects_missing_or_expired_session (req : value) (w : world) :
  truthy (field req "sessionToken") = true ->
  truthy (field req "studentId") = true ->
  (forall reference,
     doc (field req "sessionToken") = Some reference ->
     session_of (field req "sessionToken") w = None ->
     checkin req w = (reply 400 (error_body "invalid_session"), w)) /\
  (doc (field req "sessionToken") = None ->
   checkin req w = (reply 500 (error_body "server_error"), w)) /\
  (forall session,
     session_of (field req "sessionToken") w = Some session ->
     truthy (get session "expiresAt") = true ->
     number_gt (clock (clock_reads w)) (get session "expiresAt") = Some true ->
     fst (checkin req w) = reply 400 (error_body "session_expired") /\
     wrote_nothing w (snd (checkin req w))).
Proof.
  intros Htok Hsid. unfold field in *. split; [ | split ].
  - intros reference Hdoc Hnone. run. rewrite Htok, Hsid. simpl.
    rewrite (@Paths.get_session_accepted _ w _ Hdoc), Hnone. reflexivity.
  - intros Hdoc. run. rewrite Htok, Hsid. simpl.
    rewrite (@Paths.get_session_refused _ w Hdoc). reflexivity.
  - intros session Hsome Hset Hgt. run. rewrite Htok, Hsid. simpl.
    rewrite (@Paths.get_session_found _ _ _ Hsome), Hset. simpl. rewrite Hgt. simpl.
    repeat split; reflexivity.
Qed.

Ltac pipeline Hreach :=
  let Htok := fresh "Htok" in
  let Hsid := fresh "Hsid" in
  let Hsome := fresh "Hsome" in
  let Hexp := fresh "Hexp" in
  let Hdup := fresh "Hdup" in
  let E := fresh "E" in
  destruct Hreach as (Htok & Hsid & Hsome & Hexp & Hdup);
  apply Paths.get_session_found in Hsome;
  unfold field, prior_records, record_of, stamp in *;
  run; rewrite Htok, Hsid; simpl; rewrite Hsome;
  destruct (truthy (get _ "expiresAt")) eqn:E;
  [ destruct Hexp as [Hexp|Hexp]; [congruence|]; simpl; rewrite Hexp
  | ]; simpl; rewrite Hdup; simpl; rewrite ?Nat.add_1_r, ?Nat.add_0_r.

(** C5, as the handler orders its steps. On a session without a geofence
    centre, a check-in that reaches the
    location step with a location carrying two Numbers is answered
    [session_has_no_location], and one record with status
    ["rejected_no_session_location"] and [verified = false] is written. *)
Theorem checkin_session_without_geofence (req : value) (w : world) (session : value) :
  reaches_location_step req w session ->
  no_coordinates (field req "location") = false ->
  no_geofence session ->
  let rec := record_of req session w "rejected_no_session_location" false [] in
  fst (checkin req w) = reply 400 (error_body "session_has_no_location") /\
  wrote_one w (snd (checkin req w)) rec /\
  get rec "status" = VString "rejected_no_session_location" /\
  get rec "verified" = VBool false.
Proof.
  intros Hreach Hloc Hgeo rec.
  assert (Hnone : no_coordinates (get session "location") = true)
    by (destruct Hgeo as [-> | ->]; reflexivity).
  subst rec. pipeline Hreach; rewrite Hloc, Hnone; simpl;
    repeat split; reflexivity.
Qed.

(** How the distance step decides, in terms of the one comparison it makes. *)
Lemma checkin_distance_step (req : value) (w : world) (session : value) :
  reaches_distance_step req w session ->
  if (threshold_of session <? distance_to (field req "location") session)%float
  then refused_out_of_range req w session
  else accepted req w session.
Proof.
  intros (Hreach & Hloc & Hgeo).
  destruct (threshold_of session <? distance_to (field req "location") session)%float
    eqn:Hgt; unfold accepted, refused_out_of_range;
    pipeline Hreach; rewrite Hloc, Hgeo; simpl; rewrite Hgt; simpl;
    repeat split; reflexivity.
Qed.


(** C10. The presence check lets NaN through: for a stored session with a
    geofence centre there is a check-in whose two coordinates are NaN, which
    pass the [typeof] test; its distance is NaN, the out-of-range comparison
    is false, and the call is accepted with [distanceMeters] NaN. *)
Theorem checkin_accepts_nan_coordinates
    (w : world) (id : string) (studentId session : value) :
  truthy (VString id) = true ->
  truthy studentId = true ->
  session_of (VString id) w = Some session ->
  unexpired session w ->
  prior_records (VString id) studentId w = [] ->
  no_coordinates (get session "location") = false ->
  exists req,
    field req "sessionToken" = VString id /\
    field req "studentId" = studentId /\
    field req "location" = VObject [("lat", VNumber NaN); ("lng", VNumber NaN)] /\
    no_coordinates (field req "location") = false /\
    distance_to (field req "location") session = NaN /\
    (threshold_of session <? distance_to (field req "location") session)%float = false /\
    accepted req w session.
Proof.
  intros Htok Hsid Hsome Hexp Hdup Hgeo.
  set (req := VObject [("sessionToken", VString id); ("studentId", studentId);
                       ("location", VObject [("lat", VNumber NaN);
                                             ("lng", VNumber NaN)])]).
  assert (Hd : distance_to (field req "location") session = NaN)
    by (unfold distance_to; apply haversine64_nan_latitude).
  assert (Hgt : (threshold_of session <? distance_to (field req "location") session)%float = false)
    by (rewrite Hd; apply F64.nan_not_gt).
  exists req. repeat (split; [first [reflexivity | assumption] | ]).
  assert (Hreach : reaches_distance_step req w session)
    by (repeat split; assumption).
  pose proof (checkin_distance_step Hreach) as Hstep.
  rewrite Hgt in Hstep. exact Hstep.
Qed.

(** ** Check-in: writes per call *)

(** C6, as the handler has it. Every check-in writes nothing or exactly one
    attendance record.  It writes nothing exactly when it answers
    [missing_params], [invalid_session], [session_expired],
    [already_checked_in] or, from its [catch], [server_error]; otherwise the
    one record carries one of the four statuses, matching the reply. *)
Theorem checkin_zero_or_one_write (req : value) (w : world) :
  (wrote_nothing w (snd (checkin req w)) /\
   In (fst (checkin req w)) replies_without_write) \/
  (exists rec, wrote_one w (snd (checkin req w)) rec /\
               classified rec (fst (checkin req w))).
Proof.
  assert (Hzero : forall (r : response) (n : nat),
    In r replies_without_write ->
    wrote_nothing w (mkWorld (sessions w) (attendance w) (students w) n
                             (ids_drawn w) (issued w)) /\
    In r replies_without_write)
    by (intros r n Hin; repeat split; assumption).
  assert (Hone : forall (sid name session tok loc : value) (n : nat),
    let r := try_catch (geo_verify sid name session tok loc) "server_error"
               (mkWorld (sessions w) (attendance w) (students w) n
                        (ids_drawn w) (issued w)) in
    exists rec, wrote_one w (snd r) rec /\ classified rec (fst r)).
  { intros sid name session tok loc n. unfold classified, wrote_one.
    unfold try_catch, geo_verify, bind, ret, add_attendance, Date_now. cbv zeta.
    destruct (no_coordinates loc); simpl;
      [ eexists; split; [repeat split; reflexivity | simpl; tauto] | ].
    destruct (no_coordinates (get session "location")); simpl;
      [ eexists; split; [repeat split; reflexivity | simpl; tauto] | ].
    destruct (threshold_of session <? _)%float; simpl;
      eexists; (split; [repeat split; reflexivity | simpl; tauto]). }
  unfold checkin, try_catch, checkin_body, bind, ret, lift, throw,
    query_attendance, Date_now in *. cbv zeta in *.
  destruct (truthy (get (js_or req (VObject [])) "sessionToken")); simpl;
    [ | left; destruct w; apply Hzero; simpl; tauto ].
  destruct (truthy (get (js_or req (VObject [])) "studentId")); simpl;
    [ | left; destruct w; apply Hzero; simpl; tauto ].
  destruct (doc (get (js_or req (VObject [])) "sessionToken")) as [reference|] eqn:Hdoc;
    [ rewrite (@Paths.get_session_accepted _ w _ Hdoc)
    | rewrite (@Paths.get_session_refused _ w Hdoc); simpl;
      left; destruct w; apply Hzero; simpl; tauto ].
  destruct (session_of (get (js_or req (VObject [])) "sessionToken") w)
    as [session|]; simpl;
    [ | left; destruct w; apply Hzero; simpl; tauto ].
  destruct (truthy (get session "expiresAt")); simpl.
  - destruct (number_gt (clock (clock_reads w)) (get session "expiresAt"))
      as [[|]|]; simpl; try (left; apply Hzero; simpl; tauto).
    destruct (filter _ (attendance w)); simpl;
      [ right; apply Hone | left; apply Hzero; simpl; tauto ].
  - destruct (filter _ (attendance w)); simpl;
      [ right; destruct w; apply Hone | left; destruct w; apply Hzero; simpl; tauto ].
Qed.

(** ** Check-in: duplicates *)

(** An accepted check-in leaves a record that the duplicate query of the
    same pair finds. *)
Lemma accepted_leaves_prior_record (req : value) (w : world) (session : value) :
  accepted req w session ->
  exists rec rest,
    prior_records (field req "sessionToken") (field req "studentId")
                  (snd (checkin req w)) = rec :: rest.
Proof.
  intros (_ & (_ & Hatt & _) & _). unfold prior_records. rewrite Hatt.
  rewrite filter_app. simpl.
  unfold record_of, attempt, field_is. simpl.
  rewrite !store_eq_refl. simpl.
  destruct (filter _ (attendance w)); simpl; eauto.
Qed.

(** C3, as the handler orders its steps. When a record is already stored
    for the pair, a check-in writes nothing, whatever it answers; it answers
    [already_checked_in] when it gets past the parameter, session and expiry
    steps.  An accepted check-in leaves such a record behind. *)
Theorem checkin_duplicate_short_circuit (req : value) (w : world) :
  (forall rec rest,
     prior_records (field req "sessionToken") (field req "studentId") w = rec :: rest ->
     wrote_nothing w (snd (checkin req w)) /\
     (forall session,
        truthy (field req "sessionToken") = true ->
        truthy (field req "studentId") = true ->
        session_of (field req "sessionToken") w = Some session ->
        unexpired session w ->
        fst (checkin req w) = reply 200 (error_body "already_checked_in"))) /\
  (forall session,
     accepted req w session ->
     exists rec rest,
       prior_records (field req "sessionToken") (field req "studentId")
                     (snd (checkin req w)) = rec :: rest).
Proof.
  split; [ | apply accepted_leaves_prior_record ].
  intros rec rest Hprior. split.
  - unfold wrote_nothing, field, prior_records in *.
    unfold checkin, try_catch, checkin_body, bind, ret, lift, throw,
      query_attendance, Date_now. cbv zeta.
    destruct (truthy (get (js_or req (VObject [])) "sessionToken")); simpl;
      [ | repeat split; reflexivity ].
    destruct (truthy (get (js_or req (VObject [])) "studentId")); simpl;
      [ | repeat split; reflexivity ].
    destruct (doc (get (js_or req (VObject [])) "sessionToken")) as [reference|] eqn:Hdoc;
      [ rewrite (@Paths.get_session_accepted _ w _ Hdoc)
      | rewrite (@Paths.get_session_refused _ w Hdoc); simpl;
        repeat split; reflexivity ].
    destruct (session_of (get (js_or req (VObject [])) "sessionToken") w)
      as [session|]; simpl; [ | repeat split; reflexivity ].
    destruct (truthy (get session "expiresAt")); simpl.
    + destruct (number_gt (clock (clock_reads w)) (get session "expiresAt"))
        as [[|]|]; simpl; try (repeat split; reflexivity).
      rewrite Hprior. simpl. repeat split; reflexivity.
    + rewrite Hprior. simpl. repeat split; reflexivity.
  - intros session Htok Hsid Hsome Hexp.
    apply Paths.get_session_found in Hsome.
    unfold field, prior_records in *. run.
    rewrite Htok, Hsid. simpl. rewrite Hsome.
    destruct (truthy (get session "expiresAt")) eqn:E.
    + destruct Hexp as [Hexp|Hexp]; [congruence|]. simpl. rewrite Hexp. simpl.
      rewrite Hprior. reflexivity.
    + simpl. rewrite Hprior. reflexivity.
Qed.

(** ** Check-in: every call *)

(** A check-in either stops before the numbered part, writing nothing, or
    reaches the client-location step. *)
Lemma checkin_stops_or_reaches (req : value) (w : world) :
  (wrote_nothing w (snd (checkin req w)) /\
   In (fst (checkin req w)) replies_without_write) \/
  (exists session, reaches_location_step req w session).
Proof.
  unfold reaches_location_step, unexpired, prior_records, field, wrote_nothing.
  unfold checkin, try_catch, checkin_body, bind, ret, lift, throw,
    query_attendance, Date_now. cbv zeta.
  destruct (truthy (get (js_or req (VObject [])) "sessionToken")) eqn:Htok; simpl;
    [ | left; tauto ].
  destruct (truthy (get (js_or req (VObject [])) "studentId")) eqn:Hsid; simpl;
    [ | left; tauto ].
  destruct (doc (get (js_or req (VObject [])) "sessionToken")) as [reference|] eqn:Hdoc;
    [ rewrite (@Paths.get_session_accepted _ w _ Hdoc)
    | rewrite (@Paths.get_session_refused _ w Hdoc); simpl; left; tauto ].
  destruct (session_of (get (js_or req (VObject [])) "sessionToken") w)
    as [session|] eqn:Hsome; simpl; [ | left; tauto ].
  destruct (truthy (get session "expiresAt")) eqn:Hset; simpl.
  - destruct (number_gt (clock (clock_reads w)) (get session "expiresAt"))
      as [[|]|] eqn:Hgt; simpl; try (left; tauto).
    destruct (filter _ (attendance w)) eqn:Hdup; simpl; [ | left; tauto ].
    right. exists session. auto 10.
  - destruct (filter _ (attendance w)) eqn:Hdup; simpl; [ | left; tauto ].
    right. exists session. auto 10.
Qed.

(** From the client-location step on, a check-in is the numbered part, run
    after the clock reading of the expiry step. *)
Lemma checkin_from_location_step (req : value) (w : world) (session : value) :
  reaches_location_step req w session ->
  checkin req w =
  try_catch (geo_verify (field req "studentId") (field req "studentName") session
                        (field req "sessionToken") (field req "location"))
            "server_error"
            (mkWorld (sessions w) (attendance w) (students w)
                     (clock_reads w + (if truthy (get session "expiresAt") then 1 else 0))
                     (ids_drawn w) (issued w)).
Proof.
  intros (Htok & Hsid & Hsome & Hexp & Hdup).
  apply Paths.get_session_found in Hsome.
  unfold field, prior_records in *.
  unfold checkin, try_catch, checkin_body, bind, ret, lift, throw,
    query_attendance, Date_now. cbv zeta.
  rewrite Htok, Hsid. simpl. rewrite Hsome.
  destruct (truthy (get session "expiresAt")) eqn:E.
  - destruct Hexp as [Hexp|Hexp]; [congruence|]. simpl. rewrite Hexp. simpl.
    rewrite Hdup. simpl. rewrite Nat.add_1_r. reflexivity.
  - simpl. rewrite Hdup. simpl. rewrite Nat.add_0_r. destruct w; reflexivity.
Qed.

(** The numbered part writes one record and replies, in one of four ways. *)
Lemma geo_verify_writes (studentId studentName session sessionToken location : value)
    (w : world) :
  exists (st : string) (verified : bool) (more : list (string * value)),
    let rec := attempt studentId studentName session sessionToken
                 (clock (clock_reads w)) st verified more in
    let d := distance_to location session in
    let run := try_catch (geo_verify studentId studentName session sessionToken
                            location) "server_error" w in
    snd run =
      mkWorld (sessions w) (attendance w ++ [rec]) (students w)
              (S (clock_reads w)) (ids_drawn w) (issued w ++ [AddAttendance rec]) /\
    ((st = "rejected_no_location" /\ verified = false /\ more = [] /\
      fst run = reply 400 (error_body "location_required")) \/
     (st = "rejected_no_session_location" /\ verified = false /\ more = [] /\
      fst run = reply 400 (error_body "session_has_no_location")) \/
     (st = "rejected_out_of_range" /\ verified = false /\
      more = [("distanceMeters", VNumber d)] /\
      fst run = reply 400 (VObject [("ok", VBool false);
                                    ("error", VString "out_of_range");
                                    ("distanceMeters", VNumber d);
                                    ("threshold", VNumber (threshold_of session))])) \/
     (st = "present" /\ verified = true /\
      more = [("distanceMeters", VNumber d)] /\
      fst run = reply 200 (VObject [("ok", VBool true); ("verified", VBool true);
                                    ("distanceMeters", VNumber d);
                                    ("record", rec)]))).
Proof.
  unfold try_catch, geo_verify, bind, ret, add_attendance, Date_now. cbv zeta.
  destruct (no_coordinates location); simpl.
  { exists "rejected_no_location", false, []. simpl. split; [ reflexivity | tauto ]. }
  destruct (no_coordinates (get session "location")); simpl.
  { exists "rejected_no_session_location", false, []. simpl.
    split; [ reflexivity | tauto ]. }
  destruct (threshold_of session <? _)%float; simpl.
  - exists "rejected_out_of_range", false,
      [("distanceMeters", VNumber (distance_to location session))]. simpl.
    split; [ reflexivity | tauto ].
  - exists "present", true,
      [("distanceMeters", VNumber (distance_to location session))]. simpl.
    split; [ reflexivity | tauto ].
Qed.

(** What a check-in that reaches the client-location step writes and
    answers. *)
Lemma checkin_writes_its_record (req : value) (w : world) (session : value) :
  reaches_location_step req w session ->
  exists (st : string) (verified : bool) (more : list (string * value)),
    let rec := record_of req session w st verified more in
    let d := distance_to (field req "location") session in
    wrote_one w (snd (checkin req w)) rec /\
    ((st = "rejected_no_location" /\ verified = false /\ more = [] /\
      fst (checkin req w) = reply 400 (error_body "location_required")) \/
     (st = "rejected_no_session_location" /\ verified = false /\ more = [] /\
      fst (checkin req w) = reply 400 (error_body "session_has_no_location")) \/
     (st = "rejected_out_of_range" /\ verified = false /\
      more = [("distanceMeters", VNumber d)] /\
      fst (checkin req w)
      = reply 400 (VObject [("ok", VBool false);
                            ("error", VString "out_of_range");
                            ("distanceMeters", VNumber d);
                            ("threshold", VNumber (threshold_of session))])) \/
     (st = "present" /\ verified = true /\
      more = [("distanceMeters", VNumber d)] /\
      fst (checkin req w)
      = reply 200 (VObject [("ok", VBool true); ("verified", VBool true);
                            ("distanceMeters", VNumber d);
                            ("record", rec)]))).
Proof.
  intros Hreach. rewrite (checkin_from_location_step Hreach).
  destruct (geo_verify_writes (field req "studentId") (field req "studentName")
              session (field req "sessionToken") (field req "location")
              (mkWorld (sessions w) (attendance w) (students w)
                 (clock_reads w + (if truthy (get session "expiresAt") then 1 else 0))
                 (ids_drawn w) (issued w)))
    as (st & verified & more & Hw & Hcases).
  exists st, verified, more. cbv zeta in *. unfold record_of, stamp.
  split; [ | exact Hcases ].
  rewrite Hw. unfold wrote_one. simpl. auto.
Qed.

(** A stored record for the pair stops a check-in before it writes. *)
Lemma stored_record_stops_the_write (req : value) (w : world) (rec : value)
    (rest : list value) :
  prior_records (field req "sessionToken") (field req "studentId") w = rec :: rest ->
  wrote_nothing w (snd (checkin req w)).
Proof.
  intros Hprior. destruct (checkin_stops_or_reaches req w) as [[Hw _] | [session Hr]].
  - exact Hw.
  - destruct Hr as (_ & _ & _ & _ & Hnone). congruence.
Qed.

(** Past the parameter, session and expiry steps, it is reported. *)
Lemma stored_record_is_reported (req : value) (w : world) (rec : value)
    (rest : list value) (session : value) :
  prior_records (field req "sessionToken") (field req "studentId") w = rec :: rest ->
  truthy (field req "sessionToken") = true ->
  truthy (field req "studentId") = true ->
  session_of (field req "sessionToken") w = Some session ->
  unexpired session w ->
  fst (checkin req w) = reply 200 (error_body "already_checked_in").
Proof.
  intros Hprior Htok Hsid Hsome Hexp.
  apply Paths.get_session_found in Hsome.
  unfold field, prior_records in *. run.
  rewrite Htok, Hsid. simpl. rewrite Hsome.
  destruct (truthy (get session "expiresAt")) eqn:E.
  - destruct Hexp as [Hexp|Hexp]; [congruence|]. simpl. rewrite Hexp. simpl.
    rewrite Hprior. reflexivity.
  - simpl. rewrite Hprior. reflexivity.
Qed.

(** The record of an attempt is found by the duplicate query of its pair. *)
Lemma attempt_is_found (studentId studentName session sessionToken : value)
    (now : number) (st : string) (verified : bool) (more : list (string * value)) :
  field_is "sessionId" sessionToken
    (attempt studentId studentName session sessionToken now st verified more)
  && field_is "studentId" studentId
       (attempt studentId studentName session sessionToken now st verified more)
  = true.
Proof.
  unfold attempt, field_is. simpl. rewrite !store_eq_refl. reflexivity.
Qed.

(** An attendance list is not itself with a record added. *)
Lemma not_both (w w' : world) (rec : value) :
  wrote_nothing w w' -> wrote_one w w' rec -> False.
Proof.
  intros (_ & Hsame & _) (_ & Hone & _). rewrite Hsame in Hone.
  apply (f_equal (@List.length value)) in Hone. rewrite length_app in Hone.
  simpl in Hone. lia.
Qed.

(** X4. A check-in that reaches the client-location step without a usable
    location (none, or one whose [lat] or [lng] is not of type number) is
    answered 400 [location_required], and one record with status
    ["rejected_no_location"], [verified = false] and no [distanceMeters] is
    written, whether or not the session has a geofence centre. *)
Theorem checkin_requires_client_location (req : value) (w : world) (session : value) :
  reaches_location_step req w session ->
  no_coordinates (field req "location") = true ->
  let rec := record_of req session w "rejected_no_location" false [] in
  fst (checkin req w) = reply 400 (error_body "location_required") /\
  wrote_one w (snd (checkin req w)) rec /\
  get rec "status" = VString "rejected_no_location" /\
  get rec "verified" = VBool false /\
  get rec "distanceMeters" = VUndefined.
Proof.
  intros Hreach Hloc rec. subst rec.
  rewrite (checkin_from_location_step Hreach).
  unfold try_catch, geo_verify, bind, ret, add_attendance, Date_now. cbv zeta.
  rewrite Hloc. simpl. unfold record_of, stamp, wrote_one. simpl. auto 10.
Qed.

(** X20. The range check does not hold back a coordinate that is not
    finite: a check-in that reaches the distance evaluation with NaN or an
    infinity among the four coordinates, the client's or the session's,
    measures NaN and is accepted as ["present"] and verified, whatever the
    threshold. *)
Theorem checkin_non_finite_coordinate_is_accepted (req : value) (w : world)
    (session : value) :
  reaches_distance_step req w session ->
  is_finite (number_of (get (field req "location") "lat"))
  && is_finite (number_of (get (field req "location") "lng"))
  && is_finite (number_of (get (get session "location") "lat"))
  && is_finite (number_of (get (get session "location") "lng")) = false ->
  distance_to (field req "location") session = NaN /\
  accepted req w session.
Proof.
  intros Hreach Hwild.
  assert (Hd : distance_to (field req "location") session = NaN)
    by (unfold distance_to; apply haversine64_wild_coordinate, Hwild).
  split; [ exact Hd | ].
  assert (Hgt : (threshold_of session <? distance_to (field req "location") session)%float
                = false)
    by (rewrite Hd; apply F64.nan_not_gt).
  pose proof (checkin_distance_step Hreach) as Hstep.
  rewrite Hgt in Hstep. exact Hstep.
Qed.

(** X5. A check-in that reaches the client-location step writes a record,
    whatever it is classified as, the three rejections included; a later
    check-in with the same session token and student then writes nothing
    and, unless the session has expired meanwhile, is answered
    [already_checked_in]: a refused student cannot try again. *)
Theorem checkin_attempt_blocks_retry (req req' : value) (w : world) (session : value) :
  reaches_location_step req w session ->
  field req' "sessionToken" = field req "sessionToken" ->
  field req' "studentId" = field req "studentId" ->
  let w' := snd (checkin req w) in
  (exists rec, wrote_one w w' rec) /\
  wrote_nothing w' (snd (checkin req' w')) /\
  (unexpired session w' ->
   fst (checkin req' w') = reply 200 (error_body "already_checked_in")).
Proof.
  intros Hreach Htok' Hsid' w'.
  destruct (checkin_writes_its_record Hreach) as (st & verified & more & Hw & _).
  cbv zeta in Hw. fold w' in Hw.
  assert (Hprior : prior_records (field req' "sessionToken") (field req' "studentId") w'
                   = [record_of req session w st verified more]).
  { destruct Hw as (_ & Hatt & _). destruct Hreach as (_ & _ & _ & _ & Hnone).
    unfold prior_records in *. rewrite Hatt, filter_app, Htok', Hsid', Hnone.
    cbn [filter app]. unfold record_of. rewrite attempt_is_found. reflexivity. }
  split; [ eexists; exact Hw | ]. split.
  - exact (@stored_record_stops_the_write _ _ _ _ Hprior).
  - intros Hexp. destruct Hreach as (Htok & Hsid & Hsome & _ & _).
    apply (@stored_record_is_reported _ _ _ _ session Hprior).
    + rewrite Htok'. exact Htok.
    + rewrite Hsid'. exact Hsid.
    + rewrite Htok'. destruct Hw as (Hs & _).
      rewrite (@Paths.session_of_sessions _ _ _ Hs). exact Hsome.
    + exact Hexp.
Qed.

(** X6. The record a check-in writes carries the request's [studentId],
    the session token as [sessionId], the session's [courseId] (or the empty
    string), the request's [studentName] (or the empty string) and the clock
    reading as [timestamp]; its status is one of the four; it is verified
    exactly when it is ["present"]; the reply's [ok] is its [verified]; and a
    ["present"] record carries the distance the reply reports and is the
    reply's [record]. *)
Theorem checkin_record_shape (req : value) (w : world) (rec : value) :
  wrote_one w (snd (checkin req w)) rec ->
  exists session,
    session_of (field req "sessionToken") w = Some session /\
    get rec "studentId" = field req "studentId" /\
    get rec "studentName" = js_or (field req "studentName") (VString "") /\
    get rec "courseId" = js_or (get session "courseId") (VString "") /\
    get rec "sessionId" = field req "sessionToken" /\
    get rec "timestamp" = VNumber (stamp session w) /\
    In (get rec "status")
       [VString "rejected_no_location"; VString "rejected_no_session_location";
        VString "rejected_out_of_range"; VString "present"] /\
    (get rec "verified" = VBool true <-> get rec "status" = VString "present") /\
    get (body (fst (checkin req w))) "ok" = get rec "verified" /\
    (get rec "status" = VString "present" ->
     exists d, get rec "distanceMeters" = VNumber d /\
               get (body (fst (checkin req w))) "distanceMeters" = VNumber d /\
               get (body (fst (checkin req w))) "record" = rec).
Proof.
  intros Hone.
  destruct (checkin_stops_or_reaches req w) as [[Hnone _] | [session Hreach]];
    [ destruct (not_both Hnone Hone) | ].
  destruct (checkin_writes_its_record Hreach) as (st & verified & more & Hw & Hcases).
  cbv zeta in Hw, Hcases.
  assert (Hrec : rec = record_of req session w st verified more).
  { destruct Hone as (_ & Hatt & _), Hw as (_ & Hatt' & _).
    rewrite Hatt in Hatt'. apply app_inv_head in Hatt'. congruence. }
  exists session. split; [ apply Hreach | ].
  subst rec. unfold record_of, attempt in *.
  destruct Hcases as [(-> & -> & -> & ->) | [(-> & -> & -> & ->) |
                     [(-> & -> & -> & ->) | (-> & -> & -> & ->)]]]; simpl;
    (repeat split; try reflexivity; try discriminate; try tauto; eauto).
Qed.

(** X7. A check-in whose reply says [ok: true] has status 200 and has
    written exactly one record, which is ["present"] and verified; every
    other reply, [already_checked_in] with its status 200 included, says
    [ok: false]. *)
Theorem checkin_ok_means_recorded (req : value) (w : world) :
  (get (body (fst (checkin req w))) "ok" = VBool true \/
   get (body (fst (checkin req w))) "ok" = VBool false) /\
  (get (body (fst (checkin req w))) "ok" = VBool true ->
   exists rec, wrote_one w (snd (checkin req w)) rec /\
               get rec "status" = VString "present" /\
               get rec "verified" = VBool true /\
               status (fst (checkin req w)) = 200%Z).
Proof.
  destruct (checkin_stops_or_reaches req w) as [[_ Hin] | [session Hreach]].
  - simpl in Hin.
    destruct Hin as [E | [E | [E | [E | [E | []]]]]]; rewrite <- E;
      (split; [ right; reflexivity | discriminate ]).
  - destruct (checkin_writes_its_record Hreach) as (st & verified & more & Hw & Hcases).
    cbv zeta in Hw, Hcases.
    destruct Hcases as [(-> & -> & -> & E) | [(-> & -> & -> & E) |
                       [(-> & -> & -> & E) | (-> & -> & -> & E)]]];
      rewrite E; try (split; [ right; reflexivity | discriminate ]).
    split; [ left; reflexivity | ]. intros _.
    eexists. split; [ exact Hw | ]. repeat split.
Qed.

(** X8. The expiry is exclusive: a call whose clock reading is at most a
    numeric [expiresAt], the reading equal to it included, is not refused
    as expired; it is answered [already_checked_in] when a record is stored
    for the pair and writes its record otherwise. *)
Theorem checkin_expiry_is_exclusive (req : value) (w : world) (session : value)
    (e : number) :
  truthy (field req "sessionToken") = true ->
  truthy (field req "studentId") = true ->
  session_of (field req "sessionToken") w = Some session ->
  get session "expiresAt" = VNumber e ->
  (clock (clock_reads w) <=? e)%float = true ->
  (forall rec rest,
     prior_records (field req "sessionToken") (field req "studentId") w = rec :: rest ->
     fst (checkin req w) = reply 200 (error_body "already_checked_in")) /\
  (prior_records (field req "sessionToken") (field req "studentId") w = [] ->
   exists rec, wrote_one w (snd (checkin req w)) rec).
Proof.
  intros Htok Hsid Hsome He Hle.
  assert (Hexp : unexpired session w).
  { right. rewrite He. unfold number_gt. simpl. rewrite (F64.leb_not_gt Hle).
    reflexivity. }
  split.
  - intros rec rest Hprior.
    exact (@stored_record_is_reported _ _ _ _ _ Hprior Htok Hsid Hsome Hexp).
  - intros Hnone.
    assert (Hreach : reaches_location_step req w session) by (repeat split; assumption).
    destruct (checkin_writes_its_record Hreach) as (st & verified & more & Hw & _).
    eexists. exact Hw.
Qed.

End Checkin.

(** ** Session creation *)

Section CreateSession.
Context {H : Host}.
Local Open Scope string_scope.

Lemma default_lifetime : (of_Z 15 * of_Z 60 * of_Z 1000)%float = of_Z 900000.
Proof. reflexivity. Qed.

(** C8. A [createSession] call that supplies only a non-empty [courseId]
    stores, under the generated identifier, a session whose [startTs] is the
    clock reading taken for it, whose [expiresAt] is the clock reading taken
    for it plus 900000 ms, whose [thresholdMeters] is 100 and whose
    [location] is null; when the clock does not advance during the call,
    [expiresAt] is [createdAt] plus 900000.  In every call that passes the
    [courseId] check, a [thresholdMeters] that is not a finite Number is
    stored as 100. *)
Theorem createSession_defaults (req : value) (w : world) :
  truthy (field req "courseId") = true ->
  let id := autoId (ids_drawn w) in
  let w' := snd (createSession req w) in
  (field req "startTs" = VUndefined ->
   field req "expiresAt" = VUndefined ->
   field req "location" = VUndefined ->
   field req "thresholdMeters" = VUndefined ->
   let session := VObject [
     ("courseId", field req "courseId");
     ("startTs", VNumber (clock (clock_reads w)));
     ("expiresAt", VNumber (clock (clock_reads w + 1) + of_Z 900000)%float);
     ("token", VString id);
     ("createdAt", VNumber (clock (clock_reads w + 2)));
     ("location", VNull);
     ("thresholdMeters", VNumber (of_Z 100))] in
   session_of (VString id) w' = Some session /\
   issued w' = (issued w ++ [SetSession id session])%list /\
   fst (createSession req w) =
     reply 200 (VObject [("ok", VBool true); ("sessionId", VString id);
                         ("token", VString id); ("session", session)]) /\
   (forall t, clock (clock_reads w) = t -> clock (clock_reads w + 1) = t ->
              clock (clock_reads w + 2) = t ->
              get session "startTs" = VNumber t /\
              get session "createdAt" = VNumber t /\
              get session "expiresAt" = VNumber (t + of_Z 900000)%float)) /\
  (Number_isFinite (field req "thresholdMeters") = false ->
   exists session,
     session_of (VString id) w' = Some session /\
     get session "thresholdMeters" = VNumber (of_Z 100)).
Proof.
  intros Hcourse id w'. subst w' id. unfold field in *.
  rewrite !Paths.session_of_autoId.
  unfold createSession, try_catch, createSession_body, bind, ret, new_doc,
    set_session, Date_now. cbv zeta. rewrite Hcourse. simpl. split.
  - intros -> -> -> ->. simpl. rewrite String.eqb_refl.
    rewrite !Nat.add_1_r.
    replace (clock_reads w + 2) with (S (S (clock_reads w))) by lia.
    repeat split; try reflexivity; congruence.
  - intros ->.
    destruct (truthy (get (js_or req (VObject [])) "startTs"));
      destruct (truthy (get (js_or req (VObject [])) "expiresAt")); simpl;
      rewrite String.eqb_refl; eexists; split; reflexivity.
Qed.

(** The run of a call that names a course: the clock is read for [startTs]
    and for [expiresAt] only when they are not supplied, and once more for
    [createdAt]. *)
Lemma createSession_run (req : value) (w : world) :
  truthy (field req "courseId") = true ->
  let id := autoId (ids_drawn w) in
  let n1 := clock_reads w + (if truthy (field req "startTs") then 0 else 1) in
  let n2 := n1 + (if truthy (field req "expiresAt") then 0 else 1) in
  let session := VObject [
    ("courseId", field req "courseId");
    ("startTs", if truthy (field req "startTs") then field req "startTs"
                else VNumber (clock (clock_reads w)));
    ("expiresAt", if truthy (field req "expiresAt") then field req "expiresAt"
                  else VNumber (clock n1 + of_Z 15 * of_Z 60 * of_Z 1000)%float);
    ("token", VString id);
    ("createdAt", VNumber (clock n2));
    ("location", js_or (field req "location") VNull);
    ("thresholdMeters",
      if Number_isFinite (field req "thresholdMeters")
      then field req "thresholdMeters" else VNumber (of_Z 100))] in
  createSession req w =
  (reply 200 (VObject [("ok", VBool true); ("sessionId", VString id);
                       ("token", VString id); ("session", session)]),
   mkWorld ((id, session) :: sessions w) (attendance w) (students w)
           (S n2) (S (ids_drawn w)) (issued w ++ [SetSession id session])).
Proof.
  intros Hcourse. unfold field in *.
  unfold createSession, try_catch, createSession_body, bind, ret, new_doc,
    set_session, Date_now. cbv zeta. rewrite Hcourse. simpl.
  destruct (truthy (get (js_or req (VObject [])) "startTs"));
    destruct (truthy (get (js_or req (VObject [])) "expiresAt")); simpl;
    rewrite ?Nat.add_0_r, ?Nat.add_1_r; reflexivity.
Qed.

Lemma createSession_without_course (req : value) (w : world) :
  truthy (field req "courseId") = false ->
  createSession req w = (reply 400 (error_body "missing_courseId"), w).
Proof.
  unfold field. intros E.
  unfold createSession, try_catch, createSession_body, ret. cbv zeta.
  rewrite E. reflexivity.
Qed.

(** A call answers 200 only when it names a course. *)
Lemma createSession_success (req : value) (w : world) :
  status (fst (createSession req w)) = 200%Z ->
  truthy (field req "courseId") = true.
Proof.
  destruct (truthy (field req "courseId")) eqn:E; [ reflexivity | ].
  rewrite (createSession_without_course req w E). discriminate.
Qed.

(** X2. When [createSession] answers 200, the reply carries the generated
    identifier as both [sessionId] and [token]; the session in the reply
    carries that token and is the document a lookup by the token finds
    afterwards; a token that refers to another document finds what it found
    before, and the attendance and the roster are untouched. *)
Theorem createSession_token_round_trip (req : value) (w : world) :
  status (fst (createSession req w)) = 200%Z ->
  let r := fst (createSession req w) in
  let w' := snd (createSession req w) in
  get (body r) "ok" = VBool true /\
  get (body r) "token" = VString (autoId (ids_drawn w)) /\
  get (body r) "sessionId" = get (body r) "token" /\
  get (get (body r) "session") "token" = get (body r) "token" /\
  session_of (get (body r) "token") w' = Some (get (body r) "session") /\
  (forall token, doc token <> Some [autoId (ids_drawn w)] ->
     session_of token w' = session_of token w) /\
  attendance w' = attendance w /\ students w' = students w.
Proof.
  intros Hok r w'. apply createSession_success in Hok. subst r w'.
  rewrite (createSession_run _ _ Hok). cbv zeta. cbn [fst snd body get lookup].
  cbn [String.eqb Ascii.eqb Bool.eqb].
  rewrite Paths.session_of_autoId. simpl. rewrite String.eqb_refl.
  repeat split; try reflexivity.
  intros token Hne. unfold session_of. simpl.
  destruct (doc token) as [[ | id [ | ]] | ]; try reflexivity. simpl.
  destruct (String.eqb id (autoId (ids_drawn w))) eqn:E; [ | reflexivity ].
  apply String.eqb_eq in E. subst id. contradiction Hne. reflexivity.
Qed.

(** X3. The handler itself validates nothing: when [createSession] answers
    200, a truthy [startTs], [expiresAt] or [location] has been stored as
    it was supplied, whatever its type, and a [thresholdMeters] that is a
    finite Number as it was supplied, whatever its sign.  A falsy [startTs]
    or [expiresAt] (0, the empty string, null) has been replaced like a
    missing one, by the clock reading taken for it, plus 900000 for
    [expiresAt]; a falsy [location] by null; any other [thresholdMeters] by
    100. *)
Theorem createSession_stores_what_it_is_given (req : value) (w : world) :
  status (fst (createSession req w)) = 200%Z ->
  exists session,
    session_of (VString (autoId (ids_drawn w))) (snd (createSession req w))
    = Some session /\
    get session "courseId" = field req "courseId" /\
    (truthy (field req "startTs") = true ->
     get session "startTs" = field req "startTs") /\
    (truthy (field req "expiresAt") = true ->
     get session "expiresAt" = field req "expiresAt") /\
    (truthy (field req "location") = true ->
     get session "location" = field req "location") /\
    (Number_isFinite (field req "thresholdMeters") = true ->
     get session "thresholdMeters" = field req "thresholdMeters") /\
    (truthy (field req "startTs") = false ->
     get session "startTs" = VNumber (clock (clock_reads w))) /\
    (truthy (field req "expiresAt") = false ->
     exists t, get session "expiresAt" = VNumber (t + of_Z 900000)%float /\
               (truthy (field req "startTs") = true -> t = clock (clock_reads w)) /\
               (truthy (field req "startTs") = false -> t = clock (S (clock_reads w)))) /\
    (truthy (field req "location") = false -> get session "location" = VNull) /\
    (Number_isFinite (field req "thresholdMeters") = false ->
     get session "thresholdMeters" = VNumber (of_Z 100)).
Proof.
  intros Hok. apply createSession_success in Hok.
  rewrite Paths.session_of_autoId.
  rewrite (createSession_run _ _ Hok). cbv zeta. simpl.
  rewrite String.eqb_refl. eexists. split; [ reflexivity | ]. simpl.
  unfold js_or.
  repeat split; try (intros ->; reflexivity).
  intros ->. eexists. split; [ reflexivity | ].
  split; intros ->; rewrite ?Nat.add_0_r, ?Nat.add_1_r; reflexivity.
Qed.

End CreateSession.

(** ** Finalization *)

Module Ids.
Local Open Scope float_scope.

(** Numeric equality with a Number other than zero is equality. *)
Lemma eqb_nonzero_eq (x y : number) :
  (x =? y) = true -> is_zero x = false -> x = y.
Proof.
  unfold is_zero. rewrite !eqb_spec. change (Prim2SF zero) with (S754_zero false).
  intros Heq Hnz. apply Prim2SF_inj. revert Heq Hnz. unfold SFeqb.
  destruct (Prim2SF x) as [sx|sx| |sx mx ex], (Prim2SF y) as [sy|sy| |sy my ey];
    simpl; try discriminate;
    try (destruct sx; discriminate); try (destruct sy; discriminate).
  - destruct sx, sy; (discriminate || reflexivity).
  - destruct sx, sy; try discriminate;
      destruct (ex ?= ey)%Z eqn:E; try discriminate;
      apply Z.compare_eq in E; subst ey;
      change (Pos.compare_cont Eq mx my) with (Pos.compare mx my);
      destruct (mx ?= my)%positive eqn:E'; try discriminate;
      apply Pos.compare_eq in E'; subst my; reflexivity.
Qed.

Lemma identifier_same (v p : value) :
  identifier v = true -> same_value_zero v p = true -> v = p.
Proof.
  destruct v as [ | | b | n | s | | ], p as [ | | b' | n' | s' | | ];
    simpl; try discriminate.
  - intros _ Hb. apply Bool.eqb_prop in Hb. congruence.
  - unfold same_number. intros Hid Hs.
    apply Bool.negb_true_iff, Bool.orb_false_iff in Hid. destruct Hid as [Hz Hn].
    rewrite Hn in Hs. simpl in Hs. rewrite Bool.orb_false_r in Hs.
    f_equal. apply eqb_nonzero_eq; assumption.
  - intros _ Hs. apply String.eqb_eq in Hs. congruence.
Qed.

Lemma identifier_refl (v : value) :
  identifier v = true -> same_value_zero v v = true.
Proof.
  destruct v; simpl; try discriminate; intros _.
  - apply Bool.eqb_reflx.
  - apply same_number_refl.
  - apply String.eqb_refl.
Qed.

Lemma identifier_truthy (v : value) : identifier v = true -> truthy v = true.
Proof. destruct v; simpl; congruence. Qed.

(** For an identifier, [has] is membership. *)
Lemma set_has_In (ids : list value) (v : value) :
  identifier v = true -> (set_has ids v = true <-> In v ids).
Proof.
  intros Hid. unfold set_has. rewrite existsb_exists. split.
  - intros (p & Hin & Hs). apply (identifier_same _ _ Hid) in Hs. congruence.
  - intros Hin. exists v. split; [assumption | apply identifier_refl, Hid].
Qed.



(** [add] never removes an element. *)
Lemma Set_add_all_keeps (items s : list value) (v : value) :
  In v s -> In v (Set_add_all s items).
Proof.
  revert s. induction items as [ | x items IH ]; intros s Hv; simpl; [ exact Hv | ].
  apply IH. destruct (set_has s x); [ exact Hv | ].
  apply in_or_app. left. exact Hv.
Qed.

(** An identifier among the items is in the [Set]. *)
Lemma Set_add_all_holds (items s : list value) (x : value) :
  In x items -> identifier x = true -> In x (Set_add_all s items).
Proof.
  revert s. induction items as [ | y items IH ]; intros s Hx Hid; simpl;
    [ destruct Hx | ].
  destruct Hx as [-> | Hx]; [ | apply IH; assumption ].
  apply Set_add_all_keeps. destruct (set_has s x) eqn:Hhas.
  - apply (set_has_In s x Hid). exact Hhas.
  - apply in_or_app. right. left. reflexivity.
Qed.

(** The [Set] holds nothing but the items it was built from. *)
Lemma Set_add_all_from (items s : list value) (v : value) :
  In v (Set_add_all s items) -> In v s \/ In v items.
Proof.
  revert s. induction items as [ | x items IH ]; intros s Hv; simpl in *;
    [ left; exact Hv | ].
  apply IH in Hv. destruct Hv as [Hv | Hv]; [ | right; right; exact Hv ].
  destruct (set_has s x); [ left; exact Hv | ].
  apply in_app_or in Hv. destruct Hv as [Hv | [<- | []]]; auto.
Qed.

(** A truthy value that is not an identifier is an object or an array,
    which [has] compares by reference and never finds. *)
Lemma reference_never_found (ids : list value) (v : value) :
  truthy v = true -> identifier v = false -> set_has ids v = false.
Proof.
  intros Ht Hid. unfold set_has.
  destruct v; simpl in *; try congruence;
    induction ids as [ | p ids IH ]; simpl; auto.
Qed.

End Ids.

Section Finalize.
Context {H : Host}.
Local Open Scope string_scope.

(** What the [forEach] over the roster leaves: the absence documents of the
    absentees, in roster order, one identifier and one clock reading drawn
    for each. *)
Lemma mark_absent_run (presentIds : list value) (sessionId : value)
    (roster batch : list value) (k : nat) (w : world) :
  mark_absent presentIds sessionId roster batch k w =
  (Normal ((batch ++ absences sessionId (absentees presentIds roster) (clock_reads w))%list,
           k + List.length (absentees presentIds roster)),
   mkWorld (sessions w) (attendance w) (students w)
           (clock_reads w + List.length (absentees presentIds roster))
           (ids_drawn w + List.length (absentees presentIds roster))
           (issued w)).
Proof.
  revert batch k w. induction roster as [ | s roster IH ]; intros batch k w.
  - destruct w. simpl. unfold ret. rewrite app_nil_r, !Nat.add_0_r. reflexivity.
  - simpl.
    destruct (truthy (get s "studentId")
              && negb (set_has presentIds (get s "studentId"))).
    + unfold bind, new_doc, Date_now. rewrite IH. simpl.
      rewrite <- app_assoc. simpl. rewrite !Nat.add_succ_r. reflexivity.
    + apply IH.
Qed.

Lemma absences_length (sessionId : value) (entries : list value) (n : nat) :
  List.length (absences sessionId entries n) = List.length entries.
Proof.
  revert n. induction entries as [ | s entries IH ]; intros n; simpl;
    [ reflexivity | rewrite IH; reflexivity ].
Qed.


(** The run of a finalization that names a session. *)
Lemma finalizeSession_run (req : value) (w : world) :
  truthy (field req "sessionId") = true ->
  let sessionId := field req "sessionId" in
  let presentIds := Set_of (present_ids (session_records sessionId w)) in
  let gone := absentees presentIds (students w) in
  let batch := absences sessionId gone (clock_reads w) in
  finalizeSession req w =
  (reply 200 (VObject [("ok", VBool true);
                       ("absentsAdded", VNumber (of_Z (Z.of_nat (List.length gone))))]),
   mkWorld (sessions w)
           (if (0 <? List.length gone)%nat then attendance w ++ batch else attendance w)%list
           (students w)
           (clock_reads w + List.length gone) (ids_drawn w + List.length gone)
           (if (0 <? List.length gone)%nat then issued w ++ [CommitBatch batch]
            else issued w)%list).
Proof.
  intros Hsid sessionId presentIds gone batch.
  unfold finalizeSession, try_catch, finalizeSession_body. cbv zeta.
  fold (field req "sessionId"). fold sessionId.
  change (truthy sessionId = true) in Hsid. rewrite Hsid. simpl.
  unfold bind at 1. unfold query_attendance at 1.
  unfold bind at 1. unfold get_students at 1.
  fold (session_records sessionId w). fold presentIds.
  unfold bind at 1. rewrite mark_absent_run. simpl.
  fold gone. fold batch.
  unfold bind, commit, ret. destruct (0 <? List.length gone)%nat; reflexivity.
Qed.


(** ** Finalization: every call *)

Lemma finalizeSession_without_session (req : value) (w : world) :
  truthy (field req "sessionId") = false ->
  finalizeSession req w = (reply 400 (error_body "missing_sessionId"), w).
Proof.
  unfold field. intros E.
  unfold finalizeSession, try_catch, finalizeSession_body, ret. cbv zeta.
  rewrite E. reflexivity.
Qed.

Lemma is_string_eq (v : value) (s : string) :
  is_string v s = true <-> v = VString s.
Proof.
  destruct v; simpl; try (split; [ discriminate | discriminate ]).
  rewrite String.eqb_eq. split; congruence.
Qed.

(** The present identifiers are those of the ["present"] records. *)
Lemma present_ids_In (docs : list value) (p : value) :
  In p (present_ids docs) <->
  exists r, In r docs /\ get r "status" = VString "present" /\ get r "studentId" = p.
Proof.
  unfold present_ids. rewrite in_map_iff. split.
  - intros (r & Hp & Hr). apply filter_In in Hr. destruct Hr as [Hr Hs].
    apply is_string_eq in Hs. eauto.
  - intros (r & Hr & Hs & Hp). exists r. split; [ exact Hp | ].
    apply filter_In. split; [ exact Hr | apply is_string_eq, Hs ].
Qed.

Lemma present_ids_app (a b : list value) :
  present_ids (a ++ b) = (present_ids a ++ present_ids b)%list.
Proof. unfold present_ids. rewrite filter_app, map_app. reflexivity. Qed.

Lemma absences_In (sessionId : value) (entries : list value) (n : nat) (s : value) :
  In s entries ->
  exists k, In (absence s sessionId (clock k)) (absences sessionId entries n).
Proof.
  revert n. induction entries as [ | e entries IH ]; intros n Hs; [ destruct Hs | ].
  destruct Hs as [-> | Hs].
  - exists n. left. reflexivity.
  - destruct (IH (S n) Hs) as [k Hk]. exists k. right. exact Hk.
Qed.

Lemma In_absences (sessionId : value) (entries : list value) (n : nat) (d : value) :
  In d (absences sessionId entries n) ->
  exists s k, In s entries /\ d = absence s sessionId (clock k).
Proof.
  revert n. induction entries as [ | e entries IH ]; intros n Hd; [ destruct Hd | ].
  destruct Hd as [<- | Hd].
  - exists e, n. split; [ left; reflexivity | reflexivity ].
  - destruct (IH (S n) Hd) as (s & k & Hs & ->). exists s, k.
    split; [ right; exact Hs | reflexivity ].
Qed.

(** The absence documents are not ["present"] records. *)
Lemma absences_not_present (sessionId : value) (entries : list value) (n : nat)
    (p : value -> bool) :
  present_ids (filter p (absences sessionId entries n)) = [].
Proof.
  revert n. induction entries as [ | s entries IH ]; intros n; [ reflexivity | ].
  simpl. destruct (p (absence s sessionId (clock n))); [ | apply IH ].
  unfold present_ids in *. simpl. apply IH.
Qed.

Lemma absences_ids (sessionId : value) (entries : list value) (n : nat) :
  map (fun d => get d "studentId") (absences sessionId entries n)
  = map (fun s => get s "studentId") entries.
Proof.
  revert n. induction entries as [ | s entries IH ]; intros n; [ reflexivity | ].
  simpl. rewrite IH. reflexivity.
Qed.

(** What a finalization adds to the attendance collection, without any
    assumption on the roster. *)
Lemma finalizeSession_adds (req : value) (w : world) :
  truthy (field req "sessionId") = true ->
  let sessionId := field req "sessionId" in
  let presentIds := Set_of (present_ids (session_records sessionId w)) in
  let gone := absentees presentIds (students w) in
  let batch := absences sessionId gone (clock_reads w) in
  fst (finalizeSession req w)
  = reply 200 (VObject [("ok", VBool true);
                        ("absentsAdded", VNumber (of_Z (Z.of_nat (List.length batch))))]) /\
  sessions (snd (finalizeSession req w)) = sessions w /\
  attendance (snd (finalizeSession req w)) = (attendance w ++ batch)%list /\
  students (snd (finalizeSession req w)) = students w /\
  clock_reads (snd (finalizeSession req w)) = clock_reads w + List.length batch /\
  issued (snd (finalizeSession req w))
  = (issued w ++ (if (0 <? List.length batch)%nat then [CommitBatch batch] else []))%list.
Proof.
  intros Hsid sessionId presentIds gone batch.
  rewrite (finalizeSession_run req w Hsid). cbv zeta. fold sessionId presentIds gone batch.
  assert (Hlen : List.length batch = List.length gone) by apply absences_length.
  rewrite Hlen. simpl.
  repeat split; try reflexivity.
  - destruct (0 <? List.length gone)%nat eqn:E; [ reflexivity | ].
    apply Nat.ltb_ge in E.
    assert (Hnil : gone = []) by (destruct gone; simpl in E; [ reflexivity | lia ]).
    unfold batch. rewrite Hnil. simpl. rewrite app_nil_r. reflexivity.
  - destruct (0 <? List.length gone)%nat; [ reflexivity | rewrite app_nil_r; reflexivity ].
Qed.

(** X11. When there is nobody to mark (the roster is empty, or each of its
    entries lacks a [studentId] or is in the present set), a finalization
    answers [absentsAdded: 0] and leaves the world as it was: no batch is
    committed, no identifier generated, no clock reading taken. *)
Theorem finalizeSession_with_nobody_to_mark (req : value) (w : world) :
  truthy (field req "sessionId") = true ->
  (forall s, In s (students w) ->
     truthy (get s "studentId") = false \/
     set_has (Set_of (present_ids (session_records (field req "sessionId") w)))
             (get s "studentId") = true) ->
  finalizeSession req w =
  (reply 200 (VObject [("ok", VBool true); ("absentsAdded", VNumber zero)]), w).
Proof.
  intros Hsid Hall.
  assert (Hgone : absentees (Set_of (present_ids (session_records (field req "sessionId") w)))
                            (students w) = []).
  { unfold absentees. induction (students w) as [ | s roster IH ]; [ reflexivity | ].
    simpl. destruct (Hall s (or_introl eq_refl)) as [-> | ->]; simpl;
      rewrite ?andb_false_r; apply IH; intros s' Hs'; apply Hall; right; exact Hs'. }
  rewrite (finalizeSession_run req w Hsid). cbv zeta. rewrite Hgone. simpl.
  rewrite !Nat.add_0_r. destruct w; reflexivity.
Qed.

(** X12. After a finalization, every roster entry whose [studentId] is an
    identifier has a record of the session in the attendance collection
    that carries its [studentId] and is either ["present"] or ["absent"]. *)
Theorem finalizeSession_accounts_for_the_roster (req : value) (w : world) (s : value) :
  truthy (field req "sessionId") = true ->
  In s (students w) ->
  identifier (get s "studentId") = true ->
  exists d,
    In d (attendance (snd (finalizeSession req w))) /\
    field_is "sessionId" (field req "sessionId") d = true /\
    get d "studentId" = get s "studentId" /\
    (get d "status" = VString "present" \/ get d "status" = VString "absent").
Proof.
  intros Hsid Hs Hid.
  destruct (finalizeSession_adds req w Hsid) as (_ & _ & Hatt & _). cbv zeta in Hatt.
  rewrite Hatt. clear Hatt.
  set (sessionId := field req "sessionId").
  set (P := Set_of (present_ids (session_records sessionId w))).
  destruct (set_has P (get s "studentId")) eqn:Hhas.
  - apply (Ids.set_has_In P _ Hid) in Hhas.
    apply Ids.Set_add_all_from in Hhas. destruct Hhas as [[] | Hin].
    apply present_ids_In in Hin. destruct Hin as (r & Hr & Hst & Hp).
    unfold session_records in Hr. apply filter_In in Hr. destruct Hr as [Hr Hf].
    exists r. split; [ apply in_or_app; left; exact Hr | ]. auto.
  - assert (Hgone : In s (absentees P (students w))).
    { unfold absentees. apply filter_In. split; [ exact Hs | ].
      rewrite (Ids.identifier_truthy _ Hid), Hhas. reflexivity. }
    destruct (absences_In sessionId _ (clock_reads w) _ Hgone) as [k Hk].
    exists (absence s sessionId (clock k)).
    split; [ apply in_or_app; right; exact Hk | ].
    split; [ unfold field_is; simpl; apply store_eq_refl | ].
    split; [ reflexivity | right; reflexivity ].
Qed.

(** X13. Every document a finalization adds is an ["absent"], unverified
    record of the session for a roster entry with a truthy [studentId]: no
    entry without one is marked.  No added record carries the [studentId] of
    a ["present"] record of the session when that [studentId] is an
    identifier (a non-empty string, a Number other than zero, or true).  A
    roster entry whose [studentId] is an object or an array is always
    marked, present or not: the [Set] compares such values by reference. *)
Theorem finalizeSession_spares_the_present (req : value) (w : world) :
  truthy (field req "sessionId") = true ->
  exists batch,
    attendance (snd (finalizeSession req w)) = (attendance w ++ batch)%list /\
    (forall d, In d batch ->
       get d "status" = VString "absent" /\
       get d "verified" = VBool false /\
       get d "sessionId" = field req "sessionId" /\
       truthy (get d "studentId") = true /\
       (exists s, In s (students w) /\ get s "studentId" = get d "studentId") /\
       (forall r, In r (attendance w) ->
          field_is "sessionId" (field req "sessionId") r = true ->
          get r "status" = VString "present" ->
          identifier (get r "studentId") = true ->
          get r "studentId" <> get d "studentId")) /\
    (forall s, In s (students w) ->
       truthy (get s "studentId") = true ->
       identifier (get s "studentId") = false ->
       exists k, In (absence s (field req "sessionId") (clock k)) batch).
Proof.
  intros Hsid.
  destruct (finalizeSession_adds req w Hsid) as (_ & _ & Hatt & _). cbv zeta in Hatt.
  eexists. split; [ exact Hatt | ].
  set (sessionId := field req "sessionId").
  set (P := Set_of (present_ids (session_records sessionId w))).
  split.
  - intros d Hd. apply In_absences in Hd. destruct Hd as (s & k & Hs & ->).
    unfold absentees in Hs. apply filter_In in Hs. destruct Hs as [Hs Hc].
    apply andb_prop in Hc. destruct Hc as [Ht Hnot]. apply negb_true_iff in Hnot.
    simpl. repeat split; try reflexivity; try assumption.
    + exists s. split; [ exact Hs | reflexivity ].
    + intros r Hr Hf Hst Hid Heq.
      assert (Hin : In (get r "studentId") P).
      { apply Ids.Set_add_all_holds; [ | exact Hid ].
        apply present_ids_In. exists r. split; [ | auto ].
        unfold session_records. apply filter_In. auto. }
      apply (Ids.set_has_In P _ Hid) in Hin. rewrite Heq in Hin. congruence.
  - intros s Hs Ht Hid. apply absences_In. unfold absentees. apply filter_In.
    split; [ exact Hs | ]. rewrite Ht, (Ids.reference_never_found P _ Ht Hid).
    reflexivity.
Qed.

(** X14. Finalization is not idempotent: run a second time on the same
    session, it answers the same [absentsAdded] and adds absence records for
    the same students again, since only ["present"] records keep a student
    from being marked. *)
Theorem finalizeSession_repeated (req : value) (w : world) :
  truthy (field req "sessionId") = true ->
  let w1 := snd (finalizeSession req w) in
  let w2 := snd (finalizeSession req w1) in
  fst (finalizeSession req w1) = fst (finalizeSession req w) /\
  exists batch1 batch2,
    attendance w1 = (attendance w ++ batch1)%list /\
    attendance w2 = (attendance w1 ++ batch2)%list /\
    map (fun d => get d "studentId") batch2 = map (fun d => get d "studentId") batch1 /\
    fst (finalizeSession req w)
    = reply 200 (VObject [("ok", VBool true);
                          ("absentsAdded",
                           VNumber (of_Z (Z.of_nat (List.length batch1))))]).
Proof.
  intros Hsid w1 w2.
  destruct (finalizeSession_adds req w Hsid) as (Hr & _ & Hatt & Hstu & _).
  destruct (finalizeSession_adds req w1 Hsid) as (Hr1 & _ & Hatt1 & _).
  cbv zeta in *. fold w1 in Hatt, Hstu. fold w2 in Hatt1.
  set (sessionId := field req "sessionId") in *.
  assert (Hsame : present_ids (session_records sessionId w1)
                  = present_ids (session_records sessionId w)).
  { change (session_records sessionId w1)
      with (filter (field_is "sessionId" sessionId) (attendance w1)).
    rewrite Hatt, filter_app, present_ids_app, absences_not_present, app_nil_r.
    reflexivity. }
  rewrite Hsame, Hstu in Hr1, Hatt1.
  split.
  - rewrite Hr, Hr1, !absences_length. reflexivity.
  - eexists. eexists. split; [ exact Hatt | ]. split; [ exact Hatt1 | ].
    split; [ rewrite !absences_ids; reflexivity | exact Hr ].
Qed.

End Finalize.

(** ** The haversine formula over the reals *)

Module Formula.
Local Open Scope R_scope.

Lemma Int_part_2 : Int_part 2 = 2%Z.
Proof.
  unfold Int_part. rewrite <- (tech_up 2 3); [ reflexivity | simpl; lra | simpl; lra ].
Qed.

(** [x ** 2] is the square. *)
Lemma powR_2 (x : R) : powR x 2 = Rsqr x.
Proof.
  unfold powR. rewrite Int_part_2.
  destruct (Req_EM_T 2 2) as [_ | Hne]; [ | contradiction Hne; reflexivity ].
  unfold Rsqr. simpl. field.
Qed.

(** C4, as the code has it. In binary64, on every host,
    [haversineDistance] is the formula of the specification with the two
    differences taken in degrees and then converted to radians, and the
    cosines taken of the two latitudes converted to radians.  Converting all
    four inputs first gives the same function over the real numbers. *)
Theorem haversineDistance_is_reference :
  (forall (H : Host) (lat1 lon1 lat2 lon2 : number),
     haversineDistance (A := binary64) lat1 lon1 lat2 lon2
     = haversine_of_differences (A := binary64) lat1 lon1 lat2 lon2) /\
  (forall lat1 lon1 lat2 lon2 : R,
     haversineDistance lat1 lon1 lat2 lon2
     = haversine_reference lat1 lon1 lat2 lon2).
Proof.
  split; [ reflexivity | ].
  intros lat1 lon1 lat2 lon2.
  unfold haversineDistance, haversine_reference, haversine_formula, radians,
    toRad, EARTH_RADIUS.
  cbn [lit add sub mul div pow Math_PI Math_sin Math_cos Math_sqrt Math_atan2 reals].
  replace ((lat2 - lat1) * PI / 180) with (lat2 * PI / 180 - lat1 * PI / 180) by field.
  replace ((lon2 - lon1) * PI / 180) with (lon2 * PI / 180 - lon1 * PI / 180) by field.
  reflexivity.
Qed.

(** Over the reals the distance of a point to itself is zero. *)
Lemma haversine_real_identical (lat lon : R) :
  haversineDistance lat lon lat lon = 0.
Proof.
  unfold haversineDistance, toRad, EARTH_RADIUS.
  cbn [lit add sub mul div pow Math_PI Math_sin Math_cos Math_sqrt Math_atan2 reals].
  rewrite !powR_2.
  replace ((lat - lat) * PI / 180 / 2) with 0 by field.
  replace ((lon - lon) * PI / 180 / 2) with 0 by field.
  rewrite sin_0. unfold Rsqr.
  replace (0 * 0 + cos (lat * PI / 180) * cos (lat * PI / 180) * (0 * 0)) with 0 by ring.
  rewrite sqrt_0, Rminus_0_r, sqrt_1. unfold atan2R.
  destruct (Rlt_dec 0 1) as [_ | Hn]; [ | exfalso; apply Hn; lra ].
  replace (0 / 1) with 0 by field. rewrite atan_0. ring.
Qed.

(** Over the reals the distance is symmetric. *)
Lemma haversine_real_symmetric (lat1 lon1 lat2 lon2 : R) :
  haversineDistance lat1 lon1 lat2 lon2 = haversineDistance lat2 lon2 lat1 lon1.
Proof.
  unfold haversineDistance, toRad, EARTH_RADIUS.
  cbn [lit add sub mul div pow Math_PI Math_sin Math_cos Math_sqrt Math_atan2 reals].
  rewrite !powR_2.
  replace ((lat1 - lat2) * PI / 180 / 2) with (- ((lat2 - lat1) * PI / 180 / 2)) by field.
  replace ((lon1 - lon2) * PI / 180 / 2) with (- ((lon2 - lon1) * PI / 180 / 2)) by field.
  rewrite !sin_neg, <- !Rsqr_neg.
  rewrite (Rmult_comm (cos (lat2 * PI / 180)) (cos (lat1 * PI / 180))).
  reflexivity.
Qed.

End Formula.

(** ** The haversine distance over binary64 *)

Section Symmetry.
Context {H : Host}.
Hypothesis laws : Math_laws H.
Local Open Scope float_scope.

Lemma sin64_opp (x : number) : sin64 (- x) = - sin64 x.
Proof.
  unfold sin64. rewrite !F64.is_nan_SF, !F64.is_zero_SF, !F64.is_infinity_SF, opp_spec.
  destruct (Prim2SF x) as [s|s| |s m e] eqn:E; simpl; try reflexivity.
  apply (sin_odd laws). rewrite F64.is_finite_SF, E. reflexivity.
Qed.

(** [x ** 2], case by case. *)
Lemma square_cases (x : number) :
  exponentiate x (of_Z 2) =
  match Prim2SF x with
  | S754_nan => NaN
  | S754_infinity _ => infinity
  | S754_zero _ => zero
  | S754_finite _ _ _ => approx_pow x (of_Z 2)
  end.
Proof.
  unfold exponentiate.
  change (is_nan (of_Z 2)) with false. change (is_zero (of_Z 2)) with false.
  change (zero <? of_Z 2) with true. change (is_odd_integral (of_Z 2)) with false.
  change (Leibniz.eqb (of_Z 2) infinity) with false.
  change (Leibniz.eqb (of_Z 2) neg_infinity) with false.
  change (is_integral (of_Z 2)) with true. cbn [negb]. rewrite andb_false_r.
  rewrite F64.is_nan_SF.
  destruct (Prim2SF x) as [s|s| |s m e] eqn:E; try reflexivity.
  - destruct s.
    + rewrite (F64.leibniz_ne x infinity), (F64.leibniz_ne x neg_infinity),
        (F64.leibniz_ne x zero) by (rewrite E; discriminate).
      replace (Leibniz.eqb x neg_zero) with true; [ reflexivity | ].
      symmetry. apply F64.leibniz_SF. rewrite E. reflexivity.
    + rewrite (F64.leibniz_ne x infinity), (F64.leibniz_ne x neg_infinity)
        by (rewrite E; discriminate).
      replace (Leibniz.eqb x zero) with true; [ reflexivity | ].
      symmetry. apply F64.leibniz_SF. rewrite E. reflexivity.
  - destruct s.
    + rewrite (F64.leibniz_ne x infinity) by (rewrite E; discriminate).
      replace (Leibniz.eqb x neg_infinity) with true; [ reflexivity | ].
      symmetry. apply F64.leibniz_SF. rewrite E. reflexivity.
    + replace (Leibniz.eqb x infinity) with true; [ reflexivity | ].
      symmetry. apply F64.leibniz_SF. rewrite E. reflexivity.
  - rewrite (F64.leibniz_ne x infinity), (F64.leibniz_ne x neg_infinity),
      (F64.leibniz_ne x zero), (F64.leibniz_ne x neg_zero) by (rewrite E; discriminate).
    reflexivity.
Qed.

Lemma square_opp (x : number) : exponentiate (- x) (of_Z 2) = exponentiate x (of_Z 2).
Proof.
  rewrite !square_cases, opp_spec.
  destruct (Prim2SF x) as [s|s| |s m e] eqn:E; simpl; try reflexivity.
  apply (square_even laws). rewrite F64.is_finite_SF, E. reflexivity.
Qed.

Lemma hav_opp (delta : number) : hav (- delta) = hav delta.
Proof.
  unfold hav. rewrite F64.mul_opp_l, !F64.div_opp_l, sin64_opp, square_opp. reflexivity.
Qed.

Lemma hav_swap (x y : number) : hav (y - x) = hav (x - y).
Proof.
  destruct (F64.sub_swap x y) as [-> | [-> ->]]; [ apply hav_opp | reflexivity ].
Qed.

Lemma haversine64_symmetric (lat1 lon1 lat2 lon2 : number) :
  haversineDistance (A := binary64) lat1 lon1 lat2 lon2 =
  haversineDistance (A := binary64) lat2 lon2 lat1 lon1.
Proof.
  unfold haversineDistance, toRad.
  cbn [lit add sub mul div pow Math_PI Math_sin Math_cos Math_sqrt Math_atan2 binary64].
  fold (hav (lat2 - lat1)). fold (hav (lon2 - lon1)).
  fold (hav (lat1 - lat2)). fold (hav (lon1 - lon2)).
  rewrite (hav_swap lat1 lat2), (hav_swap lon1 lon2).
  rewrite (F64.mul_comm (cos64 (lat2 * PI64 / of_Z 180)) (cos64 (lat1 * PI64 / of_Z 180))).
  reflexivity.
Qed.

End Symmetry.

Section Identical.
Context {H : Host}.
Hypothesis laws : Math_laws H.
Local Open Scope float_scope.

Lemma bounded_is_finite (B : Z) (x : float) :
  bounded_by B (Prim2SF x) -> is_finite x = true.
Proof.
  rewrite F64.is_finite_SF. destruct (Prim2SF x); simpl; tauto.
Qed.

(** A magnitude of at most [c] bounds the representation. *)
Lemma abs_le_bounded (x c : float) (mc : positive) (ec : Z) :
  Prim2SF c = S754_finite false mc ec ->
  (abs x <=? c) = true -> bounded_by (53 + ec) (Prim2SF x).
Proof.
  intros Hc. rewrite leb_spec, abs_spec, Hc.
  apply SF.valid_le_bounded, Prim2SF_valid.
Qed.

Lemma toRad_bounded (x : float) :
  (abs x <=? of_Z 90) = true ->
  bounded_by 57 (Prim2SF (toRad (A := binary64) x)).
Proof.
  intros Hx. apply (@abs_le_bounded x (of_Z 90) 6333186975989760 (-46) eq_refl) in Hx.
  unfold toRad. cbn [lit mul div Math_PI binary64].
  rewrite div_spec, mul_spec.
  change (Prim2SF (of_Z 180)) with (S754_finite false 6333186975989760 (-45)).
  change (Prim2SF PI64) with (S754_finite false 7074237752028440 (-51)).
  apply (SF.SFdiv_bounded _ false 6333186975989760 (-45) 11); [ | lia | lia ].
  apply (SF.SFmul_bounded _ _ (53 + -46) 3); [ exact Hx | simpl; lia | lia | lia ].
Qed.

Lemma cos64_bounded (x : float) :
  is_finite x = true -> bounded_by 1 (Prim2SF (cos64 x)).
Proof.
  intros Hf. unfold cos64. pose proof (cos_range laws x Hf) as Hcos.
  rewrite F64.is_finite_SF in Hf.
  rewrite F64.is_nan_SF, F64.is_zero_SF, F64.is_infinity_SF.
  destruct (Prim2SF x) as [s|s| |s m e]; try discriminate.
  - change (bounded_by 1 (S754_finite false 4503599627370496 (-52))).
    cbn [bounded_by]. change (Z.pos (digits2_pos 4503599627370496)) with 53%Z. lia.
  - apply (@abs_le_bounded (approx_cos x) one 4503599627370496 (-52) eq_refl).
    exact Hcos.
Qed.

Lemma mul_zero_r (p : float) :
  is_finite p = true -> zero + p * zero = zero.
Proof.
  rewrite F64.is_finite_SF. intros Hp. apply Prim2SF_inj.
  rewrite add_spec, mul_spec. change (Prim2SF zero) with (S754_zero false).
  destruct (Prim2SF p) as [s|s| |s m e]; try discriminate; destruct s; reflexivity.
Qed.

Lemma haversine64_identical (lat lon : number) :
  coordinate lat lon = true ->
  haversineDistance (A := binary64) lat lon lat lon = zero.
Proof.
  unfold coordinate. intros Hc. apply andb_prop in Hc. destruct Hc as [Hlat Hlon].
  assert (Hflat : is_finite lat = true)
    by (apply (@bounded_is_finite (53 + -46)),
          (@abs_le_bounded lat (of_Z 90) 6333186975989760 (-46) eq_refl Hlat)).
  assert (Hflon : is_finite lon = true)
    by (apply (@bounded_is_finite (53 + -45)),
          (@abs_le_bounded lon (of_Z 180) 6333186975989760 (-45) eq_refl Hlon)).
  assert (Hcos : is_finite (cos64 (toRad (A := binary64) lat) * cos64 (toRad (A := binary64) lat)) = true).
  { apply (@bounded_is_finite (1 + 1 + 1)). rewrite mul_spec.
    assert (Hb : bounded_by 1 (Prim2SF (cos64 (toRad (A := binary64) lat))))
      by (apply cos64_bounded, (@bounded_is_finite 57), toRad_bounded, Hlat).
    apply SF.SFmul_bounded; [ exact Hb | exact Hb | lia | lia ]. }
  unfold haversineDistance.
  cbn [lit add sub mul div pow Math_PI Math_sin Math_cos Math_sqrt Math_atan2 binary64].
  rewrite (@F64.sub_self lat Hflat), (@F64.sub_self lon Hflon).
  replace (exponentiate (sin64 (toRad (A := binary64) zero / of_Z 2)) (of_Z 2)) with zero
    by reflexivity.
  rewrite (@mul_zero_r _ Hcos). reflexivity.
Qed.

End Identical.


(** The small-angle host obeys the laws. *)
Lemma small_angle_laws : Math_laws small_angle_host.
Proof.
  split; simpl.
  - reflexivity.
  - intros x _. rewrite F64.mul_opp_l, (F64.mul_comm x (- x)), F64.mul_opp_l, F64.opp_opp.
    reflexivity.
  - reflexivity.
Qed.

(** C9. The haversine distance of a coordinate pair to itself is zero, and
    the distance is symmetric: over the real numbers for all inputs; over
    binary64, on a host that obeys [Math_laws], the first for every
    coordinate pair and the second for all inputs. *)
Theorem haversine_identical_and_symmetric :
  (forall lat lon : R, haversineDistance lat lon lat lon = 0%R) /\
  (forall lat1 lon1 lat2 lon2 : R,
     haversineDistance lat1 lon1 lat2 lon2 = haversineDistance lat2 lon2 lat1 lon1) /\
  (forall H : Host, Math_laws H ->
     (forall lat lon : number,
        coordinate lat lon = true ->
        haversineDistance (A := binary64) lat lon lat lon = zero) /\
     (forall lat1 lon1 lat2 lon2 : number,
        haversineDistance (A := binary64) lat1 lon1 lat2 lon2 =
        haversineDistance (A := binary64) lat2 lon2 lat1 lon1)).
Proof.
  split; [ exact Formula.haversine_real_identical | ].
  split; [ exact Formula.haversine_real_symmetric | ].
  intros H laws. split.
  - intros lat lon. apply haversine64_identical, laws.
  - intros lat1 lon1 lat2 lon2. apply haversine64_symmetric, laws.
Qed.

(** ** Check-in at the geofence centre *)

Section Centre.
Context {H : Host}.
Hypothesis laws : Math_laws H.
Local Open Scope string_scope.

Lemma number_field_of_object (l : value) (k : string) (n : number) :
  get l k = VNumber n -> truthy l = true.
Proof. destruct l; simpl; try discriminate. reflexivity. Qed.

(** At the geofence centre the coordinates are present on both sides and
    the distance is zero. *)
Lemma centre_distance (location session : value) (lat lng : number) :
  at_geofence_centre location session lat lng ->
  coordinate lat lng = true ->
  no_coordinates location = false /\
  no_coordinates (get session "location") = false /\
  distance_to location session = zero.
Proof.
  intros (Hlat & Hlng & Hslat & Hslng) Hc. unfold no_coordinates, distance_to.
  rewrite (number_field_of_object _ _ Hlat), (number_field_of_object _ _ Hslat).
  rewrite Hlat, Hlng, Hslat, Hslng. simpl.
  repeat split. apply (haversine64_identical laws), Hc.
Qed.

(** X9. On a host that obeys [Math_laws], a check-in that reaches the
    location step from exactly the session's geofence centre (a coordinate
    pair) measures distance zero; it is accepted when the session's
    threshold is not negative, in particular under the default of 100, and
    refused as out of range when the threshold is negative, which
    [createSession] does not rule out. *)
Theorem checkin_at_the_geofence_centre (req : value) (w : world) (session : value)
    (lat lng : number) :
  reaches_location_step req w session ->
  at_geofence_centre (field req "location") session lat lng ->
  coordinate lat lng = true ->
  distance_to (field req "location") session = zero /\
  ((threshold_of session <? zero)%float = false -> accepted req w session) /\
  ((threshold_of session <? zero)%float = true -> refused_out_of_range req w session) /\
  (Number_isFinite (get session "thresholdMeters") = false -> accepted req w session).
Proof.
  intros Hreach Hat Hc.
  destruct (centre_distance Hat Hc) as (Hloc & Hgeo & Hd).
  assert (Hstep : reaches_distance_step req w session)
    by (split; [ exact Hreach | split; assumption ]).
  apply checkin_distance_step in Hstep. rewrite Hd in Hstep.
  split; [ exact Hd | ].
  split; [ intros E; rewrite E in Hstep; exact Hstep | ].
  split; [ intros E; rewrite E in Hstep; exact Hstep | ].
  intros Hdef. unfold threshold_of in Hstep. rewrite Hdef in Hstep. exact Hstep.
Qed.

(** X10. Creation and check-in compose: on a host that obeys [Math_laws],
    after a [createSession] with a geofence centre that is a coordinate pair
    and no negative threshold, a check-in that names the returned token and
    a student without a record for it, sends the centre as its location and
    arrives before the expiry, is accepted with distance zero. *)
Theorem created_session_accepts_its_centre (creq req : value) (w : world)
    (lat lng : number) :
  truthy (field creq "courseId") = true ->
  get (field creq "location") "lat" = VNumber lat ->
  get (field creq "location") "lng" = VNumber lng ->
  coordinate lat lng = true ->
  (forall t, field creq "thresholdMeters" = VNumber t -> (t <? zero)%float = false) ->
  let token := VString (autoId (ids_drawn w)) in
  let w' := snd (createSession creq w) in
  field req "sessionToken" = token ->
  truthy token = true ->
  truthy (field req "studentId") = true ->
  get (field req "location") "lat" = VNumber lat ->
  get (field req "location") "lng" = VNumber lng ->
  prior_records token (field req "studentId") w = [] ->
  (forall session, session_of token w' = Some session -> unexpired session w') ->
  exists session,
    session_of token w' = Some session /\
    accepted req w' session /\
    distance_to (field req "location") session = zero.
Proof.
  intros Hcourse Hclat Hclng Hc Hthr token w' Htok Htruthy Hsid Hlat Hlng Hprior Hexp.
  pose proof (createSession_run creq w Hcourse) as Hrun. cbv zeta in Hrun.
  match type of Hrun with
  | _ = (_, mkWorld ((_, ?s) :: _) _ _ _ _ _) => set (session := s) in *
  end.
  assert (Hsome : session_of token w' = Some session).
  { subst w' token. rewrite Paths.session_of_autoId, Hrun. simpl.
    rewrite String.eqb_refl. reflexivity. }
  assert (Hloc : get session "location" = field creq "location").
  { subst session. simpl. unfold js_or.
    rewrite (number_field_of_object _ _ Hclat). reflexivity. }
  assert (Hat : at_geofence_centre (field req "location") session lat lng).
  { unfold at_geofence_centre. rewrite Hloc. auto. }
  assert (Hreach : reaches_location_step req w' session).
  { unfold reaches_location_step. rewrite Htok.
    repeat split; try assumption.
    - apply Hexp, Hsome.
    - subst w'. rewrite Hrun. exact Hprior. }
  destruct (centre_distance Hat Hc) as (Hl & Hg & Hd).
  assert (Hstep : reaches_distance_step req w' session)
    by (split; [ exact Hreach | split; assumption ]).
  apply checkin_distance_step in Hstep. rewrite Hd in Hstep.
  assert (Ht : (threshold_of session <? zero)%float = false).
  { unfold threshold_of. subst session. simpl.
    destruct (Number_isFinite (field creq "thresholdMeters")) eqn:E; simpl.
    - rewrite E. destruct (field creq "thresholdMeters"); try discriminate.
      simpl. apply Hthr. reflexivity.
    - reflexivity. }
  rewrite Ht in Hstep. exists session. auto.
Qed.

End Centre.

(** ** What the handlers do to the store *)

Section Store.
Context {H : Host}.
Local Open Scope string_scope.

(** X1. A request that lacks a required parameter (no body, the parameter
    missing, or a falsy one such as the empty string or 0) is answered 400
    with [missing_courseId], [missing_params] or [missing_sessionId], and
    the world is left as it was: nothing is read from the store, no clock
    reading taken, no identifier generated. *)
Theorem handlers_reject_missing_parameters (req : value) (w : world) :
  (truthy (field req "courseId") = false ->
   createSession req w = (reply 400 (error_body "missing_courseId"), w)) /\
  (truthy (field req "sessionToken") = false \/ truthy (field req "studentId") = false ->
   checkin req w = (reply 400 (error_body "missing_params"), w)) /\
  (truthy (field req "sessionId") = false ->
   finalizeSession req w = (reply 400 (error_body "missing_sessionId"), w)).
Proof.
  split; [ apply createSession_without_course | ].
  split; [ | apply finalizeSession_without_session ].
  unfold field. intros E. unfold checkin, try_catch, checkin_body, ret. cbv zeta.
  destruct E as [E | E]; rewrite E; rewrite ?orb_true_r; reflexivity.
Qed.

(** X18. No handler removes or replaces an attendance document or touches
    the roster: [createSession] leaves both as they are and stores at most
    one session, under the generated identifier; [checkin] leaves the
    sessions as they are and appends at most one attendance document;
    [finalizeSession] leaves the sessions as they are and appends its batch;
    [health] changes nothing in the store. *)
Theorem handlers_only_add_documents (req : value) (w : world) :
  (let w' := snd (createSession req w) in
   attendance w' = attendance w /\ students w' = students w /\
   (sessions w' = sessions w \/
    exists session, sessions w' = (autoId (ids_drawn w), session) :: sessions w)) /\
  (let w' := snd (checkin req w) in
   sessions w' = sessions w /\ students w' = students w /\
   (attendance w' = attendance w \/
    exists rec, attendance w' = attendance w ++ [rec])%list) /\
  (let w' := snd (finalizeSession req w) in
   sessions w' = sessions w /\ students w' = students w /\
   exists batch, attendance w' = (attendance w ++ batch)%list) /\
  (let w' := snd (health w) in
   sessions w' = sessions w /\ students w' = students w /\
   attendance w' = attendance w /\ issued w' = issued w).
Proof.
  cbv zeta. split; [ | split; [ | split ] ].
  - destruct (truthy (field req "courseId")) eqn:E.
    + rewrite (createSession_run req w E). cbv zeta. simpl. eauto.
    + rewrite (createSession_without_course req w E). simpl. auto.
  - destruct (checkin_stops_or_reaches req w) as [[Hnone _] | [session Hreach]].
    + destruct Hnone as (Hs & Ha & Hst & _). auto.
    + destruct (checkin_writes_its_record Hreach) as (st & v & more & Hw & _).
      cbv zeta in Hw. destruct Hw as (Hs & Ha & Hst & _). eauto.
  - destruct (truthy (field req "sessionId")) eqn:E.
    + destruct (finalizeSession_adds req w E) as (_ & Hs & Ha & Hst & _).
      cbv zeta in Ha. eauto.
    + rewrite (finalizeSession_without_session req w E). simpl.
      repeat split. exists []. rewrite app_nil_r. reflexivity.
  - simpl. auto.
Qed.

Lemma truthy_is_defined (v : value) : truthy v = true -> is_defined v = true.
Proof. destruct v; simpl; congruence. Qed.

Lemma js_or_is_defined (a b : value) :
  is_defined b = true -> is_defined (js_or a b) = true.
Proof.
  intros Hb. unfold js_or. destruct (truthy a) eqn:E;
    [ apply truthy_is_defined, E | exact Hb ].
Qed.

Lemma finite_is_defined (v : value) : Number_isFinite v = true -> is_defined v = true.
Proof. destruct v; simpl; congruence. Qed.

Lemma absences_storable (sessionId : value) (entries : list value) (n : nat) :
  truthy sessionId = true ->
  Forall (fun s => truthy (get s "studentId") = true) entries ->
  forallb no_undefined_field (absences sessionId entries n) = true.
Proof.
  intros Hsid Hall. revert n.
  induction Hall as [ | s entries Hs _ IH ]; intros n; [ reflexivity | ].
  simpl. rewrite IH, (truthy_is_defined _ Hs), (truthy_is_defined _ Hsid).
  rewrite !js_or_is_defined by reflexivity. reflexivity.
Qed.

(** X19. No handler writes a document with an [undefined] field, which
    Firestore would reject: in every write that [createSession], [checkin]
    or [finalizeSession] issues, each field of each document is defined,
    whatever the request and the store hold. *)
Theorem handlers_write_no_undefined_field (req : value) (w : world) :
  (exists ws, issued (snd (createSession req w)) = (issued w ++ ws)%list /\
              forallb storable ws = true) /\
  (exists ws, issued (snd (checkin req w)) = (issued w ++ ws)%list /\
              forallb storable ws = true) /\
  (exists ws, issued (snd (finalizeSession req w)) = (issued w ++ ws)%list /\
              forallb storable ws = true).
Proof.
  split; [ | split ].
  - destruct (truthy (field req "courseId")) eqn:E.
    + rewrite (createSession_run req w E). cbv zeta. simpl.
      eexists. split; [ reflexivity | ]. simpl.
      rewrite (truthy_is_defined _ E), js_or_is_defined by reflexivity.
      destruct (truthy (field req "startTs")) eqn:E1;
        destruct (truthy (field req "expiresAt")) eqn:E2;
        destruct (Number_isFinite (field req "thresholdMeters")) eqn:E3;
        rewrite ?(truthy_is_defined _ E1), ?(truthy_is_defined _ E2),
          ?(finite_is_defined _ E3); reflexivity.
    + rewrite (createSession_without_course req w E). simpl.
      exists []. rewrite app_nil_r. auto.
  - destruct (checkin_stops_or_reaches req w) as [[Hnone _] | [session Hreach]].
    + destruct Hnone as (_ & _ & _ & Hi). exists []. rewrite app_nil_r. auto.
    + destruct (checkin_writes_its_record Hreach) as (st & v & more & Hw & Hcases).
      cbv zeta in Hw, Hcases. destruct Hw as (_ & _ & _ & Hi).
      eexists. split; [ exact Hi | ].
      destruct Hreach as (Htok & Hsid & _).
      unfold record_of, attempt. simpl.
      rewrite (truthy_is_defined _ Htok), (truthy_is_defined _ Hsid).
      rewrite !js_or_is_defined by reflexivity. simpl.
      destruct Hcases as [(_ & _ & -> & _) | [(_ & _ & -> & _) |
                         [(_ & _ & -> & _) | (_ & _ & -> & _)]]]; reflexivity.
  - destruct (truthy (field req "sessionId")) eqn:E.
    + destruct (finalizeSession_adds req w E) as (_ & _ & _ & _ & _ & Hi).
      cbv zeta in Hi. eexists. split; [ exact Hi | ].
      match goal with |- context [if ?c then _ else _] => destruct c end;
        [ | reflexivity ].
      simpl. rewrite andb_true_r. apply absences_storable; [ exact E | ].
      apply Forall_forall. intros s Hs. unfold absentees in Hs.
      apply filter_In in Hs. destruct Hs as [_ Hc].
      apply andb_prop in Hc. apply Hc.
    + rewrite (finalizeSession_without_session req w E). simpl.
      exists []. rewrite app_nil_r. auto.
Qed.

End Store.

(** * Closed instances *)

Module Instances.
Local Open Scope string_scope.
#[local] Set Warnings "-inexact-float".

(** C9 at the scenario's geofence centre, on the small-angle host. *)
Lemma haversine_at_centre :
  coordinate 12.9716%float 77.5946%float = true /\
  haversineDistance (A := @binary64 small_angle_host)
    12.9716%float 77.5946%float 12.9716%float 77.5946%float = zero.
Proof.
  split; [ reflexivity | ].
  apply (proj1 (proj2 (proj2 haversine_identical_and_symmetric)
                  small_angle_host small_angle_laws)).
  reflexivity.
Defined.

(** C9 does not extend to a NaN latitude: the distance of such a point to
    itself is NaN. *)
Lemma haversine_of_nan_is_nan :
  haversineDistance (A := @binary64 small_angle_host) NaN zero NaN zero = NaN.
Proof. apply haversine64_nan_latitude. Qed.

(** C7: an unknown token, on the scenario's store. *)
Lemma unknown_token_is_invalid :
  checkin (H := small_angle_host) Scenario.stranger Scenario.created
  = (reply 400 (error_body "invalid_session"), Scenario.created).
Proof.
  apply (proj1 (@checkin_rejects_missing_or_expired_session small_angle_host
                  Scenario.stranger Scenario.created eq_refl eq_refl) ["nope"]);
    reflexivity.
Defined.

(** C5: a check-in from the centre on the session created without a
    geofence. *)
Lemma bare_session_has_no_location :
  fst (checkin (H := small_angle_host) Scenario.at_centre Scenario.bare)
  = reply 400 (error_body "session_has_no_location").
Proof.
  refine (proj1 (@checkin_session_without_geofence small_angle_host
                   Scenario.at_centre Scenario.bare
                   (VObject [("courseId", VString "CS101");
                             ("startTs", VNumber (of_Z 1700000000000));
                             ("expiresAt", VNumber (of_Z 1700000900001));
                             ("token", VString "doc");
                             ("createdAt", VNumber (of_Z 1700000000002));
                             ("location", VNull);
                             ("thresholdMeters", VNumber (of_Z 100))])
                   _ eq_refl _)).
  - repeat split; try reflexivity. right. reflexivity.
  - left. reflexivity.
Defined.


(** And the one from (12.98, 77.60) is refused as out of range. *)
Lemma far_away_is_refused :
  refused_out_of_range (H := small_angle_host)
    Scenario.far_away Scenario.created Scenario.session.
Proof.
  assert (Hreach : reaches_distance_step (H := small_angle_host)
                     Scenario.far_away Scenario.created Scenario.session)
    by (repeat split; try reflexivity; right; reflexivity).
  exact (checkin_distance_step Hreach).
Qed.

(** C10 on the scenario's session. *)
Lemma nan_check_in_exists :
  exists req,
    field req "sessionToken" = VString "doc" /\
    field req "studentId" = VString "s3" /\
    field req "location" = VObject [("lat", VNumber NaN); ("lng", VNumber NaN)] /\
    no_coordinates (field req "location") = false /\
    distance_to (H := small_angle_host) (field req "location") Scenario.session = NaN /\
    (threshold_of Scenario.session
       <? distance_to (H := small_angle_host) (field req "location") Scenario.session)%float
    = false /\
    accepted (H := small_angle_host) req Scenario.created Scenario.session.
Proof.
  refine (@checkin_accepts_nan_coordinates small_angle_host Scenario.created
            "doc" (VString "s3") Scenario.session eq_refl eq_refl eq_refl _ eq_refl eq_refl).
  right. reflexivity.
Defined.

(** C8: the session created from a request with only a course. *)
Lemma bare_session_defaults :
  session_of (VString "doc") Scenario.bare
  = Some (VObject [("courseId", VString "CS101");
                   ("startTs", VNumber (of_Z 1700000000000));
                   ("expiresAt", VNumber (of_Z 1700000900001));
                   ("token", VString "doc");
                   ("createdAt", VNumber (of_Z 1700000000002));
                   ("location", VNull);
                   ("thresholdMeters", VNumber (of_Z 100))]).
Proof.
  exact (proj1 (proj1 (@createSession_defaults small_angle_host
                         Scenario.bare_request Scenario.empty eq_refl)
                  eq_refl eq_refl eq_refl eq_refl)).
Defined.


(** C3 as stated fails once the session has expired: a record is stored for
    the pair, and the second check-in is answered [session_expired]. *)
Lemma expired_session_hides_the_duplicate :
  prior_records (VString "doc") (VString "s1") Scenario.checked_in
  = [ VObject [("studentId", VString "s1"); ("studentName", VString "Asha");
               ("courseId", VString "CS101"); ("sessionId", VString "doc");
               ("timestamp", VNumber (of_Z 1700000000003));
               ("status", VString "present"); ("verified", VBool true);
               ("distanceMeters", VNumber zero)] ] /\
  fst (checkin (H := small_angle_host) Scenario.at_centre Scenario.checked_in)
  = reply 400 (error_body "session_expired").
Proof. split; reflexivity. Qed.

(** C3, amended: whatever the second check-in is answered, it writes
    nothing. *)
Lemma second_check_in_writes_nothing :
  wrote_nothing Scenario.checked_in
    (snd (checkin (H := small_angle_host) Scenario.at_centre Scenario.checked_in)).
Proof.
  refine (proj1 (proj1 (@checkin_duplicate_short_circuit small_angle_host
                          Scenario.at_centre Scenario.checked_in) _ _ eq_refl)).
Defined.

(** C6 as stated fails on the session whose [expiresAt] is an object with a
    [toString] field: both parameters are given, the session exists, no
    record is stored for the pair, the comparison with the clock throws, and
    the call is answered [server_error] without a write. *)
Lemma odd_expiry_is_a_server_error :
  truthy (field Scenario.at_centre "sessionToken") = true /\
  truthy (field Scenario.at_centre "studentId") = true /\
  session_of (VString "doc") Scenario.odd
  = Some (VObject [("courseId", VString "CS101");
                   ("startTs", VNumber (of_Z 1700000000000));
                   ("expiresAt", VObject [("toString", VNumber (of_Z 1))]);
                   ("token", VString "doc");
                   ("createdAt", VNumber (of_Z 1700000000001));
                   ("location", VNull);
                   ("thresholdMeters", VNumber (of_Z 100))]) /\
  prior_records (VString "doc") (VString "s1") Scenario.odd = [] /\
  fst (checkin (H := small_angle_host) Scenario.at_centre Scenario.odd)
  = reply 500 (error_body "server_error") /\
  issued (snd (checkin (H := small_angle_host) Scenario.at_centre Scenario.odd))
  = issued Scenario.odd /\
  attendance (snd (checkin (H := small_angle_host) Scenario.at_centre Scenario.odd))
  = attendance Scenario.odd.
Proof. repeat split; reflexivity. Qed.

(** C4 as stated fails in binary64: between the scenario's two points the
    difference of the latitudes converted to radians is not the difference
    of the converted latitudes, so the two formulas hand different angles to
    [Math.sin], on any host; on the small-angle host the two distances
    differ. *)
Lemma radians_first_differs :
  radians (A := @binary64 small_angle_host) (12.98 - 12.9716)%float
  = 0.00014660765716752302%float /\
  (radians (A := @binary64 small_angle_host) 12.98%float
   - radians (A := @binary64 small_angle_host) 12.9716%float)%float
  = 0.00014660765716753565%float /\
  Leibniz.eqb
    (haversineDistance (A := @binary64 small_angle_host)
       12.9716%float 77.5946%float 12.98%float 77.6%float)
    (haversine_reference (A := @binary64 small_angle_host)
       12.9716%float 77.5946%float 12.98%float 77.6%float)
  = false.
Proof. repeat split; reflexivity. Qed.

(** C5 as stated fails for a location that is present but ill-typed: on the
    session without a geofence, the check-in whose latitude is a string
    reaches the location step and is answered [location_required], with a
    ["rejected_no_location"] record. *)
Lemma ill_typed_location_is_required :
  get Scenario.bare_session "location" = VNull /\
  truthy (field Scenario.ill_typed "location") = true /\
  reaches_location_step (H := small_angle_host)
    Scenario.ill_typed Scenario.bare Scenario.bare_session /\
  fst (checkin (H := small_angle_host) Scenario.ill_typed Scenario.bare)
  = reply 400 (error_body "location_required") /\
  map (fun d => get d "status")
      (attendance (snd (checkin (H := small_angle_host)
                          Scenario.ill_typed Scenario.bare)))
  = [VString "rejected_no_location"].
Proof. repeat split; try reflexivity. right. reflexivity. Qed.

(** C7 as stated fails for a token that [doc] refuses: no session exists
    for the Number 5 or for the path a/b, and the check-in is answered
    [server_error], not [invalid_session]. *)
Lemma refused_token_is_a_server_error :
  truthy (field Scenario.numbered "sessionToken") = true /\
  truthy (field Scenario.numbered "studentId") = true /\
  session_of (field Scenario.numbered "sessionToken") Scenario.created = None /\
  checkin (H := small_angle_host) Scenario.numbered Scenario.created
  = (reply 500 (error_body "server_error"), Scenario.created) /\
  truthy (field Scenario.slashed "sessionToken") = true /\
  session_of (field Scenario.slashed "sessionToken") Scenario.created = None /\
  checkin (H := small_angle_host) Scenario.slashed Scenario.created
  = (reply 500 (error_body "server_error"), Scenario.created).
Proof. repeat split; reflexivity. Qed.

(** X1: a check-in without a body. *)
Lemma empty_body_is_rejected :
  checkin (H := small_angle_host) VUndefined Scenario.hour
  = (reply 400 (error_body "missing_params"), Scenario.hour).
Proof.
  apply (proj1 (proj2 (@handlers_reject_missing_parameters small_angle_host
                         VUndefined Scenario.hour))).
  left. reflexivity.
Defined.

(** X2: the token returned for the scenario's session finds it. *)
Lemma created_token_finds_session :
  session_of (VString "doc") Scenario.created = Some Scenario.session.
Proof.
  exact (proj1 (proj2 (proj2 (proj2 (proj2
           (@createSession_token_round_trip small_angle_host
              Scenario.create_request Scenario.empty eq_refl)))))).
Defined.

(** X3: the expiry and the centre of the hour-long session are stored as
    they were supplied. *)
Lemma hour_request_is_stored_as_given :
  exists session,
    session_of (VString "doc") Scenario.hour = Some session /\
    get session "expiresAt" = VNumber (of_Z 1700003600000) /\
    get session "location" = Scenario.centre.
Proof.
  destruct (@createSession_stores_what_it_is_given small_angle_host
              Scenario.hour_request Scenario.empty eq_refl)
    as (session & Hs & _ & _ & He & Hl & _).
  exists session. split; [ exact Hs | ].
  split; [ apply He; reflexivity | apply Hl; reflexivity ].
Defined.

(** X4: a check-in that sends no location. *)
Lemma no_location_is_rejected :
  fst (checkin (H := small_angle_host) Scenario.nowhere Scenario.hour)
  = reply 400 (error_body "location_required").
Proof.
  refine (proj1 (@checkin_requires_client_location small_angle_host
                   Scenario.nowhere Scenario.hour Scenario.hour_session _ eq_refl)).
  repeat split; try reflexivity. right. reflexivity.
Defined.

(** X5: the student refused at (12.98, 77.60) tries again from the centre. *)
Lemma refused_student_cannot_retry :
  fst (checkin (H := small_angle_host) Scenario.second_try Scenario.refused)
  = reply 200 (error_body "already_checked_in").
Proof.
  refine (proj2 (proj2 (@checkin_attempt_blocks_retry small_angle_host
                          Scenario.far_away Scenario.second_try Scenario.hour
                          Scenario.hour_session _ eq_refl eq_refl)) _).
  - repeat split; try reflexivity. right. reflexivity.
  - right. reflexivity.
Defined.

(** X6: the record of that refusal. *)
Lemma refusal_names_its_pair :
  get Scenario.refusal "sessionId" = VString "doc" /\
  get Scenario.refusal "studentId" = VString "s2" /\
  get Scenario.refusal "courseId" = VString "CS101".
Proof.
  destruct (@checkin_record_shape small_angle_host Scenario.far_away Scenario.hour
              Scenario.refusal)
    as (session & Hs & Hsid & _ & Hc & Htok & _).
  - repeat split; reflexivity.
  - split; [ exact Htok | ]. split; [ exact Hsid | ].
    rewrite Hc. injection Hs as <-. reflexivity.
Defined.

(** X7: the accepted check-in from the centre. *)
Lemma accepted_reply_is_recorded :
  exists rec,
    wrote_one Scenario.created
      (snd (checkin (H := small_angle_host) Scenario.at_centre Scenario.created)) rec /\
    get rec "status" = VString "present" /\
    get rec "verified" = VBool true /\
    status (fst (checkin (H := small_angle_host) Scenario.at_centre Scenario.created))
    = 200%Z.
Proof.
  exact (proj2 (@checkin_ok_means_recorded small_angle_host
                  Scenario.at_centre Scenario.created) eq_refl).
Defined.

(** X8: the check-in from the centre arrives at the very reading of the
    scenario's expiry. *)
Lemma check_in_at_the_expiry_instant :
  @clock small_angle_host (clock_reads Scenario.created) = of_Z 1700000000002 /\
  exists rec,
    wrote_one Scenario.created
      (snd (checkin (H := small_angle_host) Scenario.at_centre Scenario.created)) rec.
Proof.
  split; [ reflexivity | ].
  exact (proj2 (@checkin_expiry_is_exclusive small_angle_host Scenario.at_centre
                  Scenario.created Scenario.session (of_Z 1700000000002)
                  eq_refl eq_refl eq_refl eq_refl eq_refl) eq_refl).
Defined.

(** X9: from the centre of the hour-long session. *)
Lemma centre_check_in_measures_zero :
  distance_to (H := small_angle_host) (field Scenario.at_centre "location")
    Scenario.hour_session = zero /\
  accepted (H := small_angle_host) Scenario.at_centre Scenario.hour Scenario.hour_session.
Proof.
  assert (Hreach : reaches_location_step (H := small_angle_host)
                     Scenario.at_centre Scenario.hour Scenario.hour_session).
  { repeat split; try reflexivity. right. reflexivity. }
  assert (Hat : at_geofence_centre (field Scenario.at_centre "location")
                  Scenario.hour_session 12.9716%float 77.5946%float).
  { repeat split. }
  split.
  - exact (proj1 (@checkin_at_the_geofence_centre small_angle_host small_angle_laws
                    Scenario.at_centre Scenario.hour Scenario.hour_session
                    12.9716%float 77.5946%float Hreach Hat eq_refl)).
  - exact (proj1 (proj2 (@checkin_at_the_geofence_centre small_angle_host
                           small_angle_laws Scenario.at_centre Scenario.hour
                           Scenario.hour_session 12.9716%float 77.5946%float
                           Hreach Hat eq_refl)) eq_refl).
Defined.

(** X10: the scenario's session, created and checked into from its centre. *)
Lemma scenario_session_accepts_its_centre :
  exists session,
    session_of (VString "doc") Scenario.created = Some session /\
    accepted (H := small_angle_host) Scenario.at_centre Scenario.created session /\
    distance_to (H := small_angle_host) (field Scenario.at_centre "location") session
    = zero.
Proof.
  refine (@created_session_accepts_its_centre small_angle_host small_angle_laws
            Scenario.create_request Scenario.at_centre Scenario.empty
            12.9716%float 77.5946%float eq_refl eq_refl eq_refl eq_refl _
            eq_refl eq_refl eq_refl eq_refl eq_refl eq_refl _).
  - intros t Ht. discriminate Ht.
  - intros session Hs. injection Hs as <-. right. reflexivity.
Defined.

(** X11: a finalization before any roster is loaded. *)
Lemma empty_roster_adds_nothing :
  finalizeSession (H := small_angle_host) Scenario.finalize_request Scenario.checked_in
  = (reply 200 (VObject [("ok", VBool true); ("absentsAdded", VNumber zero)]),
     Scenario.checked_in).
Proof.
  apply (@finalizeSession_with_nobody_to_mark small_angle_host
           Scenario.finalize_request Scenario.checked_in eq_refl).
  intros s [].
Defined.

(** X12: the third student of the roster, who never checked in. *)
Lemma third_student_is_accounted_for :
  exists d,
    In d (attendance (snd (finalizeSession (H := small_angle_host)
                             Scenario.finalize_request Scenario.enrolled))) /\
    field_is "sessionId" (VString "doc") d = true /\
    get d "studentId" = VString "s3" /\
    (get d "status" = VString "present" \/ get d "status" = VString "absent").
Proof.
  refine (@finalizeSession_accounts_for_the_roster small_angle_host
            Scenario.finalize_request Scenario.enrolled
            (VObject [("studentId", VString "s3"); ("courseId", VString "CS101")])
            eq_refl _ eq_refl).
  simpl. auto.
Defined.

(** X13: what the scenario's finalization adds. *)
Lemma finalization_adds_absences_only :
  exists batch,
    attendance (snd (finalizeSession (H := small_angle_host)
                       Scenario.finalize_request Scenario.enrolled))
    = (attendance Scenario.enrolled ++ batch)%list /\
    forall d, In d batch ->
      get d "status" = VString "absent" /\ truthy (get d "studentId") = true.
Proof.
  destruct (@finalizeSession_spares_the_present small_angle_host
              Scenario.finalize_request Scenario.enrolled eq_refl)
    as (batch & Ha & Hall & _).
  exists batch. split; [ exact Ha | ].
  intros d Hd. destruct (Hall d Hd) as (Hst & _ & _ & Ht & _). auto.
Defined.

(** X14: the scenario's finalization, run twice. *)
Lemma second_finalization_adds_two_again :
  fst (finalizeSession (H := small_angle_host) Scenario.finalize_request
         (snd (finalizeSession (H := small_angle_host)
                 Scenario.finalize_request Scenario.enrolled)))
  = reply 200 (VObject [("ok", VBool true); ("absentsAdded", VNumber (of_Z 2))]).
Proof.
  exact (eq_trans (proj1 (@finalizeSession_repeated small_angle_host
                            Scenario.finalize_request Scenario.enrolled eq_refl))
                  eq_refl).
Defined.

(** X15: an infinite longitude. *)
Lemma haversine_of_infinite_longitude :
  haversineDistance (A := @binary64 small_angle_host) zero infinity zero zero = NaN.
Proof.
  exact (proj1 (@haversine64_non_finite_coordinate small_angle_host
                  zero infinity zero zero eq_refl)).
Defined.

(** X20: a check-in that sends an infinite latitude is accepted. *)
Lemma check_in_from_infinity_is_accepted :
  accepted (H := small_angle_host) Scenario.beyond Scenario.hour Scenario.hour_session.
Proof.
  refine (proj2 (@checkin_non_finite_coordinate_is_accepted small_angle_host
                   Scenario.beyond Scenario.hour Scenario.hour_session _ eq_refl)).
  repeat split; try reflexivity. right. reflexivity.
Defined.

End Instances.
